(** * Latent-ODE infection forecaster: forward pass, trainer, evaluator

    A shallow embedding of [mr_node/model/model.py], [train.py] and
    [test_in.py].  Tensors are lists, Python floats are exact rationals
    extended with the IEEE special values, Python exceptions are the failure
    of a small state-and-log monad, and the calls into PyTorch, torchdiffeq and
    NumPy are the fields of one record of collaborators. *)

From Stdlib Require Import Decimal DecimalString DecimalZ.
From Stdlib Require Import Ascii String.
From Stdlib Require Import List ZArith QArith Qround Lia Lqa Bool Arith.
From Stdlib Require Import Permutation Sorted Mergesort Orders.
Import ListNotations.

Set Implicit Arguments.

(* ================================================================= *)
(** ** Python floats *)

(** A Python float: a finite value (kept as the exact rational it denotes,
    rounding is not modelled, and [-0.0] is identified with [0.0]), the two
    infinities, or NaN. *)
Inductive pyfloat : Type :=
| Fin (q : Q)
| PInf
| NInf
| NaN.

Definition fin (q : Q) : pyfloat := Fin (Qred q).



Definition Qsign (q : Q) : comparison := (Qnum q ?= 0)%Z.

Definition fl_neg (x : pyfloat) : pyfloat :=
  match x with
  | Fin q => fin (- q)
  | PInf => NInf
  | NInf => PInf
  | NaN => NaN
  end.

Definition fl_add (x y : pyfloat) : pyfloat :=
  match x, y with
  | NaN, _ | _, NaN => NaN
  | PInf, NInf | NInf, PInf => NaN
  | PInf, _ | _, PInf => PInf
  | NInf, _ | _, NInf => NInf
  | Fin a, Fin b => fin (a + b)
  end.

Definition fl_sub (x y : pyfloat) : pyfloat := fl_add x (fl_neg y).

Definition inf_of_sign (c : comparison) : pyfloat :=
  match c with Gt => PInf | Lt => NInf | Eq => NaN end.

Definition fl_sign (x : pyfloat) : comparison :=
  match x with
  | Fin q => Qsign q
  | PInf => Gt
  | NInf => Lt
  | NaN => Eq
  end.

Definition sign_mul (a b : comparison) : comparison :=
  match a, b with
  | Eq, _ | _, Eq => Eq
  | Gt, c | c, Gt => c
  | Lt, Lt => Gt
  end.

Definition fl_mul (x y : pyfloat) : pyfloat :=
  match x, y with
  | NaN, _ | _, NaN => NaN
  | Fin a, Fin b => fin (a * b)
  | _, _ => inf_of_sign (sign_mul (fl_sign x) (fl_sign y))
  end.

(** Tensor division: a zero divisor gives an infinity or NaN, it never
    raises. *)
Definition fl_div (x y : pyfloat) : pyfloat :=
  match x, y with
  | NaN, _ | _, NaN => NaN
  | Fin a, Fin b =>
      match Qsign b with
      | Eq => inf_of_sign (Qsign a)
      | _ => fin (a / b)
      end
  | Fin _, _ => Fin 0
  | _, Fin b =>
      match Qsign b with
      | Lt => fl_neg x
      | _ => x
      end
  | _, _ => NaN
  end.

(** [x < y] on Python floats: every comparison with NaN is [False]. *)
Definition fl_ltb (x y : pyfloat) : bool :=
  match x, y with
  | NaN, _ | _, NaN => false
  | Fin a, Fin b => if Qlt_le_dec a b then true else false
  | NInf, NInf => false
  | NInf, _ => true
  | _, PInf => match x with PInf => false | _ => true end
  | _, _ => false
  end.

Definition fl_of_nat (n : nat) : pyfloat := Fin (inject_Z (Z.of_nat n)).

(** Python's [float / int]: [ZeroDivisionError] on a zero divisor. *)
Definition py_div (x : pyfloat) (n : nat) : option pyfloat :=
  match n with
  | O => None
  | _ => Some (fl_div x (fl_of_nat n))
  end.

(* ================================================================= *)
(** ** Tensors *)

(** A vector of floats and a [time x features] matrix; the batch axis of the
    repository's tensors always has size 1 and is left out. *)
Definition vec := list pyfloat.
Definition mat := list vec.

Definition fl_sum (v : vec) : pyfloat := fold_left fl_add v (Fin 0).

(** [tensor.mean()]: NaN on an empty tensor. *)
Definition fl_mean (v : vec) : pyfloat :=
  fl_div (fl_sum v) (fl_of_nat (length v)).

(** [torch.cat((a, b), dim=2)] on row-aligned windows: the rows are joined
    pairwise; a different number of rows raises. *)
Fixpoint cat_features (a b : mat) : option mat :=
  match a, b with
  | [], [] => Some []
  | ra :: a', rb :: b' =>
      match cat_features a' b' with
      | Some m => Some ((ra ++ rb) :: m)
      | None => None
      end
  | _, _ => None
  end.

(** [tensor.flip(0)]. *)
Definition flip0 (m : mat) : mat := rev m.

(** [tensor[idx]] with a list of row indexes: [IndexError] when one is out of
    range. *)
Fixpoint index_rows (m : mat) (idx : list nat) : option mat :=
  match idx with
  | [] => Some []
  | i :: idx' =>
      match nth_error m i, index_rows m idx' with
      | Some r, Some rs => Some (r :: rs)
      | _, _ => None
      end
  end.

(** [tensor.squeeze()] on a [W x 1 x 1] window of scalars, [W >= 2]. *)
Fixpoint squeeze_column (m : mat) : option vec :=
  match m with
  | [] => Some []
  | [x] :: m' =>
      match squeeze_column m' with
      | Some v => Some (x :: v)
      | None => None
      end
  | _ :: _ => None
  end.

(** The result of [time_window.squeeze()]: every axis of size 1 goes, so a
    window of a single timestamp collapses to a 0-dimensional tensor. *)
Inductive squeezed : Type :=
| Scalar (t : Q)
| Vector (ts : list Q).

Definition squeeze_time (time_window : list Q) : squeezed :=
  match time_window with
  | [t] => Scalar t
  | ts => Vector ts
  end.

(** [tensor[0]]: [IndexError] on a 0-dimensional or an empty tensor. *)
Definition index0 (s : squeezed) : option Q :=
  match s with
  | Scalar _ => None
  | Vector [] => None
  | Vector (t0 :: _) => Some t0
  end.

(** [tensor - scalar]; on a 0-dimensional tensor the result stays
    0-dimensional. *)
Definition sub_scalar (s : squeezed) (c : Q) : squeezed :=
  match s with
  | Scalar t => Scalar (t - c)
  | Vector ts => Vector (map (fun t => t - c) ts)
  end.

Definition times_of (s : squeezed) : list Q :=
  match s with
  | Scalar t => [t]
  | Vector ts => ts
  end.

(* ================================================================= *)
(** ** Datasets and hyperparameters *)

Record Window : Type := {
  time_window : list Q;
  weather_window : mat;
  infect_window : mat
}.

(** Modelled from the spec: [mr_node/data.py] (class [Data]) is not among the
    sources.  A dataset offers its windows in series order, the window count,
    the target statistics, and the covariate row in force at a time. *)
Record Data : Type := {
  windows : list Window;
  num_windows : nat;
  infect_means : pyfloat;
  infect_stds : pyfloat;
  weather_at : Q -> option vec
}.

(** The three dataset objects of a run; the vector field keeps a reference
    to one of them. *)
Inductive split : Type := TrainSet | ValidSet | TestSet.

(** The fields [get_hyperparameters] fills in ([mr_node/hyperparams.py] is
    not among the sources). *)
Record Hyperparameters : Type := {
  region : string;
  solver : string;
  lr : pyfloat;
  dropout_rate : pyfloat;
  input_dims : Z;
  output_dims : Z;
  encoder_fc_dims : list Z;
  hidden_dims : Z;
  odefunc_fc_dims : list Z;
  decoder_fc_dims : list Z;
  std : pyfloat;
  window_length : Z;
  num_epochs : Z;
  rtol : pyfloat;
  atol : pyfloat
}.

Definition EXTRAPOLATION_WINDOW_LENGTH : nat := 250.
Definition GT_STEPS_FOR_EXTRAPOLATION : nat := 100.

(* ================================================================= *)
(** ** The integrator as an interaction with the vector field *)

(** An integration run: it ends with a result, raises, or asks the vector
    field for the derivative at a time and a state and goes on with the
    answer.  The vector field is reached through [Ask] only, so the questions
    of a run are exactly the evaluations of the field. *)
Inductive Solver (A : Type) : Type :=
| Done (a : A)
| Fail
| Ask (t : Q) (h : vec) (k : vec -> Solver A).

Arguments Fail {A}.

Fixpoint solver_map {A B} (f : A -> B) (s : Solver A) : Solver B :=
  match s with
  | Done a => Done (f a)
  | Fail => Fail
  | Ask t h k => Ask t h (fun d => solver_map f (k d))
  end.

(* ================================================================= *)
(** ** Collaborators *)

(** What [model.py], [train.py] and [test_in.py] call and do not define.  The
    encoder, vector-field and decoder networks ([mr_node/model/encoder.py],
    [odefunc.py], [decoder.py], not among the sources) are functions of the
    trainable parameters; the decoder reads each latent state on its own.
    From the libraries: torchdiffeq's [odeint], the output stream of torch's
    global random generator, the elementwise
    [Normal(loc, scale).log_prob(value)], automatic differentiation, the
    optimizer, and the permutation NumPy's generator draws at its [n]-th
    call. *)
Record Torch : Type := {
  Params : Type;
  Grad : Type;
  encoder : Params -> mat -> vec -> vec;
  odefunc_net : Params -> vec -> vec -> vec;
  decoder : Params -> vec -> vec;
  odeint : string -> pyfloat -> pyfloat -> vec -> list Q -> Solver (list vec);
  randn : nat -> pyfloat;
  log_prob : pyfloat -> pyfloat -> pyfloat -> pyfloat;
  zero_grad : Grad -> Grad;
  backward : Params -> Window -> Grad -> Grad;
  optimizer_step : Params -> Grad -> Params;
  np_permutation : nat -> nat -> list nat
}.

(* ================================================================= *)
(** ** Program state, log and monad *)

(** Who is running a forward pass. The label is carried for the log only. *)
Inductive caller : Type :=
| TrainCall (epoch i : nat)
| ValidCall (epoch i : nat)
| TestCall (i : nat).

Definition is_valid_call (c : caller) : bool :=
  match c with ValidCall _ _ => true | _ => false end.

Inductive Event : Type :=
| Encode (c : caller) (x : mat) (h_init : vec)
| Integrate (c : caller) (h : vec) (ts : list Q)
| Query (c : caller) (t : Q)
| Return (c : caller) (prediction : mat)
| ZeroGrad (epoch i : nat)
| Loss (c : caller) (v : pyfloat)
| Backward (epoch i : nat)
| Step (epoch i : nat)
| TrainAvg (epoch : nat) (v : pyfloat)
| ValidAvg (epoch : nat) (v : pyfloat)
| Save (epoch : nat).

(** A log entry: what happened, and the dataset reference and start time the
    vector field held at that moment. *)
Record Entry : Type := {
  live : split;
  start : Q;
  what : Event
}.

Section Machine.

Variable T : Torch.

(** The mutable state: the vector field's dataset reference and start time,
    the position in the random stream, the parameters and their gradients. *)
Record World : Type := {
  odefunc_data : split;
  odefunc_start_time : Q;
  rng_pos : nat;
  params : Params T;
  grads : Grad T
}.

Record Out (A : Type) : Type := {
  res : option A;
  st : World;
  log : list Entry
}.

Definition M (A : Type) : Type := World -> Out A.

Definition ret {A} (a : A) : M A :=
  fun w => {| res := Some a; st := w; log := [] |}.

Definition raise {A} : M A :=
  fun w => {| res := None; st := w; log := [] |}.

Definition bind {A B} (m : M A) (f : A -> M B) : M B :=
  fun w =>
    let o := m w in
    match res o with
    | None => {| res := None; st := st o; log := log o |}
    | Some a =>
        let o' := f a (st o) in
        {| res := res o'; st := st o'; log := log o ++ log o' |}
    end.

Definition lift {A} (o : option A) : M A :=
  match o with Some a => ret a | None => raise end.

Definition get : M World :=
  fun w => {| res := Some w; st := w; log := [] |}.

Definition put (w : World) : M unit :=
  fun _ => {| res := Some tt; st := w; log := [] |}.

Definition entry_of (w : World) (e : Event) : Entry :=
  {| live := odefunc_data w; start := odefunc_start_time w; what := e |}.

Definition emit (e : Event) : M unit :=
  fun w => {| res := Some tt; st := w; log := [entry_of w e] |}.

End Machine.

Arguments ret {T A} a.
Arguments raise {T A}.
Arguments bind {T A B} m f.
Arguments lift {T A} o.
Arguments get {T}.
Arguments put {T} w.
Arguments emit {T} e.
Arguments entry_of {T} w e.

Declare Scope py_scope.
Delimit Scope py_scope with py.
Notation "x <- m ;; k" := (bind m (fun x => k))
  (at level 61, m at next level, right associativity) : py_scope.
Notation "m ;; k" := (bind m (fun _ => k))
  (at level 61, right associativity) : py_scope.

Section Program.

Variable T : Torch.
Variable datasets : split -> Data.
Variable hyperparams : Hyperparameters.

Local Open Scope py_scope.

Definition with_data (w : World T) (d : split) : World T :=
  {| odefunc_data := d; odefunc_start_time := odefunc_start_time w;
     rng_pos := rng_pos w; params := params w; grads := grads w |}.

Definition with_start (w : World T) (t0 : Q) : World T :=
  {| odefunc_data := odefunc_data w; odefunc_start_time := t0;
     rng_pos := rng_pos w; params := params w; grads := grads w |}.

Definition with_rng (w : World T) (n : nat) : World T :=
  {| odefunc_data := odefunc_data w;
     odefunc_start_time := odefunc_start_time w;
     rng_pos := rng_pos w + n; params := params w; grads := grads w |}.

Definition with_params (w : World T) (p : Params T) : World T :=
  {| odefunc_data := odefunc_data w;
     odefunc_start_time := odefunc_start_time w;
     rng_pos := rng_pos w; params := p; grads := grads w |}.

Definition with_grads (w : World T) (g : Grad T) : World T :=
  {| odefunc_data := odefunc_data w;
     odefunc_start_time := odefunc_start_time w;
     rng_pos := rng_pos w; params := params w; grads := g |}.

Definition set_data (d : split) : M T unit :=
  w <- get ;; put (with_data w d).

Definition set_start_time (t0 : Q) : M T unit :=
  w <- get ;; put (with_start w t0).

Definition set_params (p : Params T) : M T unit :=
  w <- get ;; put (with_params w p).

Definition set_grads (g : Grad T) : M T unit :=
  w <- get ;; put (with_grads w g).

(** [torch.randn(1, 1, n)]: the next [n] values of the generator; a negative
    size raises. *)
Definition torch_randn (n : Z) : M T vec :=
  if (n <? 0)%Z then raise
  else
    w <- get ;;
    put (with_rng w (Z.to_nat n)) ;;
    ret (map (randn T) (seq (rng_pos w) (Z.to_nat n))).

(** Modelled from the spec: [mr_node/model/odefunc.py] (class [ODEFunc]) is
    not among the sources.  The field at relative time [t] and state [h]
    reads, from the dataset it currently refers to, the covariate row in force
    at [t + start_time] (a failed lookup raises) and applies its network to
    [h] and that row. *)
Definition odefunc_forward (c : caller) (t : Q) (h : vec) : M T vec :=
  emit (Query c t) ;;
  w <- get ;;
  cov <- lift (weather_at (datasets (odefunc_data w))
                          (t + odefunc_start_time w)) ;;
  ret (odefunc_net T (params w) h cov).

(** Running the integrator with the stateful field as right-hand side. *)
Fixpoint run_solver {A} (c : caller) (s : Solver A) : M T A :=
  match s with
  | Done a => ret a
  | Fail => raise
  | Ask t h k => d <- odefunc_forward c t h ;; run_solver c (k d)
  end.

(** [Model.forward] (model.py 46-83).  The decoder is applied to each
    integrated state on its own (spec 4.4). *)
Definition forward (c : caller) (weather infect : mat) (time : list Q)
  : M T (list vec) :=
  data_window <- lift (cat_features weather infect) ;;
  let reversed_data_window := flip0 data_window in
  h_init <- torch_randn (hidden_dims hyperparams) ;;
  w <- get ;;
  emit (Encode c reversed_data_window h_init) ;;
  let h := encoder T (params w) reversed_data_window h_init in
  let time := squeeze_time time in
  start_time <- lift (index0 time) ;;
  set_start_time start_time ;;
  let time := sub_scalar time start_time in
  emit (Integrate c h (times_of time)) ;;
  hs <- run_solver c (odeint T (solver hyperparams) (rtol hyperparams)
                             (atol hyperparams) h (times_of time)) ;;
  let prediction := map (decoder T (params w)) hs in
  emit (Return c prediction) ;;
  ret prediction.

(* ----------------------------------------------------------------- *)
(** *** The trainer (train.py 139-213) *)

(** [-Normal(mu.squeeze(), scale).log_prob(x.squeeze()).mean()] for a
    prediction and a target that are columns of scalars ([output_dims] is 1
    in [get_hyperparameters]) of one length, as the loops below supply them;
    other shapes are taken to raise (broadcasting is not modelled). *)
Definition neg_mean_log_prob (scale : pyfloat) (mu x : mat)
  : option pyfloat :=
  match squeeze_column mu, squeeze_column x with
  | Some m, Some v =>
      if Nat.eqb (length m) (length v)
      then Some (fl_neg (fl_mean
                  (map (fun p => log_prob T (fst p) scale (snd p))
                       (combine m v))))
      else None
  | _, _ => None
  end.

Definition train_data : Data := datasets TrainSet.
Definition valid_data : Data := datasets ValidSet.
Definition test_data : Data := datasets TestSet.

(** One iteration of the training loop (lines 150-170). *)
Definition train_window (epoch i : nat) (win : Window)
    (train_total_loss : pyfloat) : M T pyfloat :=
  w <- get ;;
  set_grads (zero_grad T (grads w)) ;;
  emit (ZeroGrad epoch i) ;;
  infect_mu <- forward (TrainCall epoch i) (weather_window win)
                       (infect_window win) (time_window win) ;;
  train_loss <- lift (neg_mean_log_prob (std hyperparams) infect_mu
                                        (infect_window win)) ;;
  emit (Loss (TrainCall epoch i) train_loss) ;;
  let train_total_loss := fl_add train_total_loss train_loss in
  w <- get ;;
  set_grads (backward T (params w) win (grads w)) ;;
  emit (Backward epoch i) ;;
  w <- get ;;
  set_params (optimizer_step T (params w) (grads w)) ;;
  emit (Step epoch i) ;;
  ret train_total_loss.

Fixpoint train_windows (epoch i : nat) (ws : list Window)
    (train_total_loss : pyfloat) : M T pyfloat :=
  match ws with
  | [] => ret train_total_loss
  | win :: ws' =>
      total <- train_window epoch i win train_total_loss ;;
      train_windows epoch (S i) ws' total
  end.

(** One iteration of the validation loop (lines 184-205). *)
Definition valid_window (epoch i : nat) (win : Window)
    (valid_total_loss : pyfloat) : M T pyfloat :=
  let weather_window_beginning :=
    firstn GT_STEPS_FOR_EXTRAPOLATION (weather_window win) in
  let infect_window_beginning :=
    firstn GT_STEPS_FOR_EXTRAPOLATION (infect_window win) in
  set_data ValidSet ;;
  valid_infect_mu <- forward (ValidCall epoch i) weather_window_beginning
                             infect_window_beginning (time_window win) ;;
  set_data TrainSet ;;
  valid_loss <- lift (neg_mean_log_prob (std hyperparams) valid_infect_mu
                                        (infect_window win)) ;;
  emit (Loss (ValidCall epoch i) valid_loss) ;;
  ret (fl_add valid_total_loss valid_loss).

Fixpoint valid_windows (epoch i : nat) (ws : list Window)
    (valid_total_loss : pyfloat) : M T pyfloat :=
  match ws with
  | [] => ret valid_total_loss
  | win :: ws' =>
      total <- valid_window epoch i win valid_total_loss ;;
      valid_windows epoch (S i) ws' total
  end.

(** The variables that live across epochs. *)
Record Curves : Type := {
  all_train_avg_loss : list pyfloat;
  all_valid_avg_loss : list pyfloat;
  lowest_valid_avg_loss : option pyfloat
}.

(** The test of line 210. *)
Definition improves (lowest : option pyfloat) (valid_avg_loss : pyfloat)
  : bool :=
  match lowest with
  | None => true
  | Some l => fl_ltb valid_avg_loss l
  end.

(** The body of the epoch loop (lines 146-213). *)
Definition train_epoch (epoch : nat) (cv : Curves) : M T Curves :=
  train_total_loss <- train_windows epoch 0 (windows train_data) (Fin 0) ;;
  train_avg_loss <- lift (py_div train_total_loss (num_windows train_data)) ;;
  emit (TrainAvg epoch train_avg_loss) ;;
  valid_total_loss <- valid_windows epoch 0 (windows valid_data) (Fin 0) ;;
  valid_avg_loss <- lift (py_div valid_total_loss (num_windows valid_data)) ;;
  emit (ValidAvg epoch valid_avg_loss) ;;
  if improves (lowest_valid_avg_loss cv) valid_avg_loss then
    emit (Save epoch) ;;
    ret {| all_train_avg_loss := all_train_avg_loss cv ++ [train_avg_loss];
           all_valid_avg_loss := all_valid_avg_loss cv ++ [valid_avg_loss];
           lowest_valid_avg_loss := Some valid_avg_loss |}
  else
    ret {| all_train_avg_loss := all_train_avg_loss cv ++ [train_avg_loss];
           all_valid_avg_loss := all_valid_avg_loss cv ++ [valid_avg_loss];
           lowest_valid_avg_loss := lowest_valid_avg_loss cv |}.

Fixpoint train_epochs (epochs : list nat) (cv : Curves) : M T Curves :=
  match epochs with
  | [] => ret cv
  | epoch :: rest => cv' <- train_epoch epoch cv ;; train_epochs rest cv'
  end.

(** [train]: [for epoch in range(hyperparams.num_epochs)]. *)
Definition train : M T Curves :=
  train_epochs (seq 0 (Z.to_nat (num_epochs hyperparams)))
    {| all_train_avg_loss := []; all_valid_avg_loss := [];
       lowest_valid_avg_loss := None |}.

(* ----------------------------------------------------------------- *)
(** *** The evaluator (test_in.py) *)

(** [np.random.choice(a, size, replace=False)] for an integer [a]: the first
    [size] entries of a permutation of [range(a)]; [ValueError] when [size] is
    negative or exceeds [a]. *)
Definition np_random_choice (shuffled : list nat) (a size : Z)
  : option (list nat) :=
  if (size <? 0)%Z then None
  else if (a <? size)%Z then None
  else Some (firstn (Z.to_nat size) shuffled).

(** [get_indexes_to_keep] (lines 16-25); [shuffled] is the permutation the
    generator draws for this call. *)
Definition get_indexes_to_keep (shuffled : list nat) (original_length : Z)
    (drop_rate : Q) : option (list nat) :=
  let num_to_keep := Qfloor (inject_Z original_length * (1 - drop_rate)) in
  match np_random_choice shuffled original_length num_to_keep with
  | Some chosen => Some (NatSort.sort chosen)
  | None => None
  end.

Definition scale_shift (s m : pyfloat) (x : mat) : mat :=
  map (map (fun v => fl_add (fl_mul v s) m)) x.

(** Lines 138-141. *)
Definition pred_infect_of (infect_hat : mat) : mat :=
  scale_shift (infect_stds train_data) (infect_means train_data) infect_hat.

Definition gt_infect_of (gt_infect_window : mat) : mat :=
  scale_shift (infect_stds test_data) (infect_means test_data)
              gt_infect_window.

(** [torch.nn.MSELoss()(a, b)] on two windows of scalars. *)
Definition mse (a b : mat) : option pyfloat :=
  match squeeze_column a, squeeze_column b with
  | Some x, Some y =>
      if Nat.eqb (length x) (length y)
      then Some (fl_mean (map (fun p => let d := fl_sub (fst p) (snd p) in
                                        fl_mul d d) (combine x y)))
      else None
  | _, _ => None
  end.

(** The losses of one evaluation window (lines 137-152). *)
Definition window_losses (infect_hat gt_infect_window : mat)
  : option (pyfloat * pyfloat) :=
  let pred_infect := pred_infect_of infect_hat in
  let gt_infect := gt_infect_of gt_infect_window in
  match mse pred_infect gt_infect,
        neg_mean_log_prob (Fin (1 # 10)) pred_infect gt_infect with
  | Some mse_loss, Some mle_loss => Some (mse_loss, mle_loss)
  | _, _ => None
  end.

(** One iteration of the evaluation loop (lines 121-156). *)
Definition test_window (drop_rate : Q) (i : nat) (win : Window)
    (totals : pyfloat * pyfloat) : M T (pyfloat * pyfloat) :=
  indexes_to_keep <-
    lift (get_indexes_to_keep
            (np_permutation T i GT_STEPS_FOR_EXTRAPOLATION)
            (Z.of_nat GT_STEPS_FOR_EXTRAPOLATION) drop_rate) ;;
  weather <- lift (index_rows (weather_window win) indexes_to_keep) ;;
  infect <- lift (index_rows (infect_window win) indexes_to_keep) ;;
  infect_hat <- forward (TestCall i) weather infect (time_window win) ;;
  losses <- lift (window_losses infect_hat (infect_window win)) ;;
  emit (Loss (TestCall i) (snd losses)) ;;
  ret (fl_add (fst totals) (fst losses), fl_add (snd totals) (snd losses)).

Fixpoint test_windows (drop_rate : Q) (i : nat) (ws : list Window)
    (totals : pyfloat * pyfloat) : M T (pyfloat * pyfloat) :=
  match ws with
  | [] => ret totals
  | win :: ws' =>
      totals' <- test_window drop_rate i win totals ;;
      test_windows drop_rate (S i) ws' totals'
  end.

(** [test]: the averages written to the loss file, [(avg_mle, avg_mse)]. *)
Definition test (drop_rate : Q) : M T (pyfloat * pyfloat) :=
  set_data TestSet ;;
  totals <- test_windows drop_rate 0 (windows test_data) (Fin 0, Fin 0) ;;
  avg_mle <- lift (py_div (snd totals) (num_windows test_data)) ;;
  avg_mse <- lift (py_div (fst totals) (num_windows test_data)) ;;
  ret (avg_mle, avg_mse).

End Program.

(* ================================================================= *)
(** ** The job identifier (train.py 61-74) *)

Local Open Scope string_scope.

(** [str(n)] for a Python int. *)
Definition str_int (n : Z) : string := NilZero.string_of_int (Z.to_int n).

(** [", ".join(...)]. *)
Fixpoint join_comma (parts : list string) : string :=
  match parts with
  | [] => ""
  | [p] => p
  | p :: rest => p ++ ", " ++ join_comma rest
  end.

(** [str(xs)] for a list of ints: ["[8, 16, 8]"]. *)
Definition str_list (xs : list Z) : string :=
  "[" ++ join_comma (map str_int xs) ++ "]".

(** Bringing a positive rational into [[1, 10)] by powers of ten; the fuel
    covers the exponent range of a 64-bit float. *)
Fixpoint norm10 (fuel : nat) (q : Q) (e : Z) : Q * Z :=
  match fuel with
  | O => (q, e)
  | S fuel' =>
      if Qle_bool 10 q then norm10 fuel' (q / 10) (e + 1)
      else if Qle_bool 1 q then (q, e)
      else norm10 fuel' (q * 10) (e - 1)
  end.

(** Rounding to the nearest integer, ties to even. *)
Definition round_half_even (q : Q) : Z :=
  let f := Qfloor q in
  match Qcompare (q - inject_Z f) (1 # 2) with
  | Lt => f
  | Gt => (f + 1)%Z
  | Eq => if Z.even f then f else (f + 1)%Z
  end.

Definition str_exponent (e : Z) : string :=
  (if (e <? 0)%Z then "-" else "+") ++
  (if (Z.abs e <? 10)%Z then "0" else "") ++ str_int (Z.abs e).

(** [f"{q:.1e}"] for a positive finite value: two significant digits of the
    exact value, correctly rounded. *)
Definition format_1e_pos (q : Q) : string :=
  let (m, e) := norm10 700 q 0 in
  let d := round_half_even (m * 10) in
  let (d, e) := if (d =? 100)%Z then (10%Z, (e + 1)%Z) else (d, e) in
  str_int (d / 10) ++ "." ++ str_int (d mod 10) ++ "e" ++ str_exponent e.

(** [f"{x:.1e}"] for a float. *)
Definition format_1e (x : pyfloat) : string :=
  match x with
  | Fin q =>
      match Qsign q with
      | Eq => "0.0e+00"
      | Gt => format_1e_pos q
      | Lt => "-" ++ format_1e_pos (- q)
      end
  | PInf => "inf"
  | NInf => "-inf"
  | NaN => "nan"
  end.

Section JobId.

(** [repr] of a float (its shortest round-trip decimal), which [f"{x}"]
    prints. *)
Variable float_repr : pyfloat -> string.

Definition get_job_id (hyperparams : Hyperparameters) : string :=
  region hyperparams
  ++ "_" ++ solver hyperparams
  ++ "_lr" ++ format_1e (lr hyperparams)
  ++ "_enc" ++ str_list (encoder_fc_dims hyperparams)
  ++ "_hidden" ++ str_int (hidden_dims hyperparams)
  ++ "_ode" ++ str_list (odefunc_fc_dims hyperparams)
  ++ "_dec" ++ str_list (decoder_fc_dims hyperparams)
  ++ "_window" ++ str_int (window_length hyperparams)
  ++ "_epochs" ++ str_int (num_epochs hyperparams)
  ++ "_rtol" ++ float_repr (rtol hyperparams)
  ++ "_atol" ++ float_repr (atol hyperparams).

End JobId.

(** Does the character occur in the string? *)
Fixpoint occurs (c : ascii) (s : string) : bool :=
  match s with
  | EmptyString => false
  | String a s' => Ascii.eqb a c || occurs c s'
  end.

Local Close Scope string_scope.


(* ================================================================= *)
(** ** Contracts of the integrator *)

(** [solver_spec P R total s]: whatever the field answers, [s] asks only at
    times satisfying [P], a result it ends with satisfies [R], and when
    [total] holds it never raises. *)
Inductive solver_spec {A} (P : Q -> Prop) (R : A -> Prop) (total : bool)
  : Solver A -> Prop :=
| spec_done a : R a -> solver_spec P R total (Done a)
| spec_fail : total = false -> solver_spec P R total Fail
| spec_ask t h k :
    P t -> (forall d, solver_spec P R total (k d)) ->
    solver_spec P R total (Ask t h k).

Definition first_time (ts : list Q) : Q := hd 0 ts.




(** A result of the integrator, when there is one, has one state per grid
    time. *)
Definition odeint_grid_shape (T : Torch) : Prop :=
  forall method rt at_ h ts,
    solver_spec (fun _ => True) (fun hs : list vec => length hs = length ts)
                false (odeint T method rt at_ h ts).

(* ================================================================= *)
(** ** A small concrete instance *)

Definition vadd (a b : vec) : vec :=
  map (fun p => fl_add (fst p) (snd p)) (combine a b).

Definition vscale (c : Q) (v : vec) : vec := map (fl_mul (Fin c)) v.

(** The explicit Euler scheme on the grid of the requested times: one
    evaluation of the field at the left end of every step. *)
Fixpoint euler_steps (y : vec) (t0 : Q) (ts : list Q) : Solver (list vec) :=
  match ts with
  | [] => Done []
  | t1 :: ts' =>
      Ask t0 y (fun f0 =>
        let y1 := vadd y (vscale (t1 - t0) f0) in
        solver_map (cons y1) (euler_steps y1 t1 ts'))
  end.

Definition euler (y0 : vec) (ts : list Q) : Solver (list vec) :=
  match ts with
  | [] => Fail
  | t0 :: ts' => solver_map (cons y0) (euler_steps y0 t0 ts')
  end.

(** A one-output model whose prediction is read from a table indexed by the
    number of optimizer steps taken so far, and whose log-probability is minus
    the location, so that a window's loss is the table entry. *)
Definition toy (table : nat -> pyfloat) : Torch :=
  {| Params := nat;
     Grad := unit;
     encoder := fun _ _ h_init => h_init;
     odefunc_net := fun _ h _ => h;
     decoder := fun steps _ => [table steps];
     odeint := fun _ _ _ => euler;
     randn := fun n => fl_of_nat n;
     log_prob := fun loc _ _ => fl_neg loc;
     zero_grad := fun g => g;
     backward := fun _ _ g => g;
     optimizer_step := fun steps _ => S steps;
     np_permutation := fun _ n => rev (seq 0 n) |}.

Definition toy_window : Window :=
  {| time_window := [3; 4];
     weather_window := [[Fin 0]; [Fin 0]];
     infect_window := [[Fin 0]; [Fin 0]] |}.

Definition toy_data (ws : list Window) (mean sd : pyfloat) : Data :=
  {| windows := ws; num_windows := length ws;
     infect_means := mean; infect_stds := sd;
     weather_at := fun _ => Some [Fin 0] |}.

Definition toy_datasets (n_train : nat) (s : split) : Data :=
  match s with
  | TrainSet => toy_data (repeat toy_window n_train) (Fin 0) (Fin 1)
  | ValidSet => toy_data [toy_window] (Fin 0) (Fin 1)
  | TestSet => toy_data [toy_window] (Fin 5) (Fin 2)
  end.

Definition toy_hp (epochs : Z) : Hyperparameters :=
  {| region := "cr"; solver := "euler"; lr := Fin (3 # 10000);
     dropout_rate := Fin (1 # 2); input_dims := 4; output_dims := 1;
     encoder_fc_dims := [8; 16; 8]%Z; hidden_dims := 2;
     odefunc_fc_dims := [64; 64]%Z; decoder_fc_dims := [8; 16; 8]%Z;
     std := Fin (1 # 10); window_length := 2; num_epochs := epochs;
     rtol := Fin (1 # 10000); atol := Fin (1 # 1000000) |}.

Definition toy_world (table : nat -> pyfloat) : World (toy table) :=
  @Build_World (toy table) TrainSet 0 0%nat 0%nat tt.

Definition table_of (l : list pyfloat) (n : nat) : pyfloat := nth n l NaN.

Definition toy_train (n_train : nat) (l : list pyfloat) (epochs : Z)
  : Out (toy (table_of l)) Curves :=
  train (toy_datasets n_train) (toy_hp epochs) (toy_world (table_of l)).

(* ================================================================= *)
(** ** Reading the log *)

(** The forward call an entry was logged by, if any. *)
Definition caller_of (e : Event) : option caller :=
  match e with
  | Encode c _ _ | Integrate c _ _ | Query c _ | Return c _ => Some c
  | _ => None
  end.

(** Was the entry logged from inside a validation forward call? *)
Definition in_validation_forward (e : Event) : bool :=
  match caller_of e with
  | Some c => is_valid_call c
  | None => false
  end.

(** The epochs at which a checkpoint was written, in order. *)
Definition saved_epochs (l : list Entry) : list nat :=
  flat_map (fun e => match what e with Save ep => [ep] | _ => [] end) l.

(** The per-window training losses, in order. *)
Definition train_losses (l : list Entry) : list pyfloat :=
  flat_map (fun e => match what e with
                     | Loss (TrainCall _ _) v => [v]
                     | _ => []
                     end) l.

(** The reported per-epoch training averages, in order. *)
Definition train_averages (l : list Entry) : list pyfloat :=
  flat_map (fun e => match what e with TrainAvg _ v => [v] | _ => [] end) l.

(** What the training loop does around its forward calls: gradient resets,
    returned predictions, losses, backward passes and optimizer steps. *)
Definition is_training_event (e : Event) : bool :=
  match e with
  | ZeroGrad _ _ | Backward _ _ | Step _ _ => true
  | Return (TrainCall _ _) _ | Loss (TrainCall _ _) _ => true
  | _ => false
  end.

Definition training_events (l : list Entry) : list Event :=
  filter is_training_event (map what l).

(** The checkpoint decisions of the epoch loop as a function of the sequence
    of validation averages. *)
Definition next_lowest (lowest : option pyfloat) (v : pyfloat)
  : option pyfloat :=
  if improves lowest v then Some v else lowest.

Fixpoint checkpoints (lowest : option pyfloat) (epochs : list nat)
    (vs : list pyfloat) : list nat :=
  match epochs, vs with
  | e :: es, v :: vs' =>
      (if improves lowest v then [e] else [])
      ++ checkpoints (next_lowest lowest v) es vs'
  | _, _ => []
  end.


(** Entries the summaries above pass over. *)
Definition quiet (e : Entry) : Prop :=
  match what e with
  | Encode _ _ _ | Integrate _ _ _ | Query _ _ => True
  | Return (ValidCall _ _) _ | Loss (ValidCall _ _) _ => True
  | Return (TestCall _) _ | Loss (TestCall _) _ => True
  | ValidAvg _ _ => True
  | _ => False
  end.

(** What the training loop logs for window [i] of an epoch, forward-internal
    entries left out: the gradient reset, the returned prediction, the loss,
    which is the negated mean over the timesteps of the log-probability of the
    target under [Normal(prediction, std)], the backward pass and the
    optimizer step. *)
Definition training_block (T : Torch) (scale : pyfloat)
    (job : nat * nat * Window) (evs : list Event) : Prop :=
  let '(epoch, i, win) := job in
  exists prediction mu x,
    squeeze_column prediction = Some mu /\
    squeeze_column (infect_window win) = Some x /\
    length mu = length x /\
    evs = [ZeroGrad epoch i;
           Return (TrainCall epoch i) prediction;
           Loss (TrainCall epoch i)
                (fl_neg (fl_mean (map (fun p => log_prob T (fst p) scale (snd p))
                                      (combine mu x))));
           Backward epoch i;
           Step epoch i].



(** The training windows with their indexes, epoch after epoch. *)
Definition schedule (epochs : list nat) (ws : list Window)
  : list (nat * nat * Window) :=
  flat_map (fun e => map (fun iw => (e, fst iw, snd iw))
                         (combine (seq 0 (length ws)) ws)) epochs.

(* ================================================================= *)
(** ** Specifications of runs *)

Section RunPredicates.

Variable T : Torch.

(** [triple P m L Q]: from a state satisfying [P], every entry [m] logs
    satisfies [L], and if [m] returns [a] the final state satisfies [Q a]. *)
Definition triple {A} (P : World T -> Prop) (m : M T A)
    (L : Entry -> Prop) (Q : A -> World T -> Prop) : Prop :=
  forall w, P w ->
    Forall L (log (m w)) /\
    forall a, res (m w) = Some a -> Q a (st (m w)).

(** Runs that take the dataset reference from [d] to [d'] while logging
    entries that satisfy [L]. *)
Definition moves (d d' : split) (L : Entry -> Prop) {A} (m : M T A) : Prop :=
  triple (fun w => odefunc_data w = d) m L (fun _ w => odefunc_data w = d').

(** Runs that log entries satisfying [L] only. *)
Definition only (L : Entry -> Prop) {A} (m : M T A) : Prop :=
  forall w, Forall L (log (m w)).

End RunPredicates.

Arguments moves T d d' L {A} m.
Arguments only T L {A} m.

(** The dataset reference an entry must show. *)
Definition live_rule (e : Entry) : Prop :=
  live e = if in_validation_forward (what e) then ValidSet else TrainSet.

(** The training windows of one epoch, numbered from [i]. *)
Definition jobs (epoch i : nat) (ws : list Window)
  : list (nat * nat * Window) :=
  map (fun iw => (epoch, fst iw, snd iw)) (combine (seq i (length ws)) ws).

(** Tables and starting points of the concrete runs. *)
Definition table_c3 : list pyfloat :=
  [Fin 1; Fin (1 # 2); Fin (3 # 5); Fin (2 # 5); Fin (2 # 5); Fin (3 # 10)].



Definition hp_lr (x : pyfloat) : Hyperparameters :=
  {| region := "cr"; solver := "euler"; lr := x;
     dropout_rate := Fin (1 # 2); input_dims := 4; output_dims := 1;
     encoder_fc_dims := [8; 16; 8]%Z; hidden_dims := 4;
     odefunc_fc_dims := [64; 64]%Z; decoder_fc_dims := [8; 16; 8]%Z;
     std := Fin (1 # 10); window_length := 128; num_epochs := 1;
     rtol := Fin (1 # 10000); atol := Fin (1 # 1000000) |}.

(* ================================================================= *)
(** ** State invariants, the evaluator's default and the job grid *)

Section StateRelations.

Variable T : Torch.

(** [stable R m]: whatever [m] does, and whether or not it returns, its final
    state is related to its initial state by [R]. *)
Definition stable (R : World T -> World T -> Prop) {A} (m : M T A) : Prop :=
  forall w, R w (st (m w)).

(** Same parameters and same gradients. *)
Definition same_weights (w w' : World T) : Prop :=
  params w' = params w /\ grads w' = grads w.

End StateRelations.

Arguments stable T R {A} m.

(** Entries that are neither a checkpoint nor logged from inside a validation
    forward call. *)
Definition before_validation (e : Entry) : Prop :=
  in_validation_forward (what e) = false /\ forall ep, what e <> Save ep.

(** The number of occurrences of a character in a string. *)
Fixpoint count_char (c : ascii) (s : string) : nat :=
  match s with
  | EmptyString => 0
  | String a s' => (if Ascii.eqb a c then 1 else 0) + count_char c s'
  end.

(** The default of [--job_id] in the evaluator (test_in.py 34). *)
Definition default_job_id : string :=
  "region3lr3.0e-04_enc[8, 16, 8]_hidden4_ode[64, 64]_dec[8, 16, 8]_window128_epochs1_rtol0.0001_atol1e-06".

(** One point of the hyperparameter grid of [sbatch_train.py], in the order
    of its loops: lr, encoder widths, hidden size, vector-field widths,
    decoder widths, window length, epochs, rtol, atol. *)
Definition grid_point : Type :=
  pyfloat * (list Z * (Z * (list Z * (list Z * (Z * (Z * (pyfloat * pyfloat))))))).

(** The lists the script loops over (sbatch_train.py 21-29). *)
Record Grid : Type := {
  lr_list : list pyfloat;
  encoder_fc_dims_list : list (list Z);
  hidden_dims_list : list Z;
  odefunc_fc_dims_list : list (list Z);
  decoder_fc_dims_list : list (list Z);
  window_length_list : list Z;
  num_epochs_list : list Z;
  rtol_list : list pyfloat;
  atol_list : list pyfloat
}.

Definition sbatch_grid : Grid :=
  {| lr_list := [Fin (2 # 10000)];
     encoder_fc_dims_list := [[4; 4]; [8; 4]]%Z;
     hidden_dims_list := [3; 4; 5]%Z;
     odefunc_fc_dims_list := [[4; 8; 4]]%Z;
     decoder_fc_dims_list := [[8; 16; 8]; [4; 8; 4]]%Z;
     window_length_list := [128]%Z;
     num_epochs_list := [400]%Z;
     rtol_list := [Fin (1 # 10000)];
     atol_list := [Fin (1 # 1000000)] |}.

Section Sbatch.

Variable float_repr : pyfloat -> string.

Local Open Scope string_scope.

(** The job name of one grid point (sbatch_train.py 44-55). *)
Definition sbatch_job (p : grid_point) : string :=
  let '(lr, (encoder_fc_dims, (hidden_dims, (odefunc_fc_dims,
        (decoder_fc_dims, (window_length, (num_epochs, (rtol, atol)))))))) :=
    p in
  "gx_"
  ++ "lr" ++ format_1e lr
  ++ "_enc" ++ str_list encoder_fc_dims
  ++ "_hidden" ++ str_int hidden_dims
  ++ "_ode" ++ str_list odefunc_fc_dims
  ++ "_dec" ++ str_list decoder_fc_dims
  ++ "_window" ++ str_int window_length
  ++ "_epochs" ++ str_int num_epochs
  ++ "_rtol" ++ float_repr rtol
  ++ "_atol" ++ float_repr atol.

Local Close Scope string_scope.

(** The grid points in the order the nested loops visit them (lines 34-42):
    the outermost list varies slowest. *)
Definition grid_points (g : Grid) : list grid_point :=
  list_prod (lr_list g)
    (list_prod (encoder_fc_dims_list g)
       (list_prod (hidden_dims_list g)
          (list_prod (odefunc_fc_dims_list g)
             (list_prod (decoder_fc_dims_list g)
                (list_prod (window_length_list g)
                   (list_prod (num_epochs_list g)
                      (list_prod (rtol_list g) (atol_list g)))))))).

(** The job names the script writes job files for, in order. *)
Definition sbatch_jobs (g : Grid) : list string :=
  map sbatch_job (grid_points g).

End Sbatch.

(** The toy datasets with the windows of each split given. *)
Definition toy_datasets_of (train valid test : list Window) (s : split)
  : Data :=
  match s with
  | TrainSet => toy_data train (Fin 0) (Fin 1)
  | ValidSet => toy_data valid (Fin 0) (Fin 1)
  | TestSet => toy_data test (Fin 5) (Fin 2)
  end.

(** A window of a single timestamp, and a window of 100 rows. *)
Definition single_time_window : Window :=
  {| time_window := [3];
     weather_window := [[Fin 0]];
     infect_window := [[Fin 0]] |}.

Definition long_window : Window :=
  {| time_window := map (fun n => inject_Z (Z.of_nat n)) (seq 3 100);
     weather_window := repeat [Fin 0] 100;
     infect_window := repeat [Fin 0] 100 |}.

(** The per-window evaluation losses the evaluator logs, in order. *)
Definition test_losses (l : list Entry) : list pyfloat :=
  flat_map (fun e => match what e with
                     | Loss (TestCall _) v => [v]
                     | _ => []
                     end) l.

(* ================================================================= *)
(** * Properties *)

(** ** Tensors and time grids *)


Lemma cat_features_rows a b m :
  cat_features a b = Some m ->
  (length a = length b /\ length m = length a)%nat /\
  forall k, (k < length a)%nat -> nth k m [] = nth k a [] ++ nth k b [].
Proof.
  revert b m; induction a as [|ra a IH]; intros [|rb b] m H; cbn in H;
    try discriminate.
  - injection H as <-. repeat split; auto. intros k Hk. inversion Hk.
  - destruct (cat_features a b) as [m'|] eqn:E; [|discriminate].
    injection H as <-. destruct (IH b m' E) as ((Hl & Hm) & Hn).
    repeat split; cbn; auto. intros [|k] Hk; [reflexivity|].
    apply Hn. cbn in Hk. lia.
Qed.

Lemma index0_some time t0 :
  index0 (squeeze_time time) = Some t0 ->
  (2 <= length time)%nat /\ t0 = first_time time /\
  times_of (sub_scalar (squeeze_time time) t0) =
  map (fun t => t - t0) time.
Proof.
  destruct time as [|a [|b l]]; cbn; try discriminate.
  intros [= <-]. repeat split. lia.
Qed.






(** ** The forward pass *)

Section ForwardFacts.

Variable T : Torch.
Variable datasets : split -> Data.
Variable hyperparams : Hyperparameters.

(** The integrator leaves the state alone and logs one query per question. *)
Lemma run_solver_spec {A} (P : Q -> Prop) (R : A -> Prop) total c
    (s : Solver A) (w : World T) :
  solver_spec P R total s ->
  st (run_solver datasets c s w) = w /\
  Forall (fun e => exists t, e = entry_of w (Query c t) /\ P t)
         (log (run_solver datasets c s w)) /\
  (forall a, res (run_solver datasets c s w) = Some a -> R a) /\
  (total = true ->
   (forall t, P t ->
      weather_at (datasets (odefunc_data w)) (t + odefunc_start_time w)
      <> None) ->
   res (run_solver datasets c s w) <> None).
Proof.
  induction 1 as [a Ha | Hf | t h k Ht _ IH]; cbn.
  - repeat split; auto; [intros b [= <-]; exact Ha | intros; discriminate].
  - repeat split; auto; try discriminate. intros E; rewrite Hf in E.
    discriminate.
  - unfold bind, odefunc_forward, emit, get, lift, bind; cbn.
    destruct (weather_at (datasets (odefunc_data w))
                         (t + odefunc_start_time w)) as [cov|] eqn:E; cbn.
    + destruct (IH (odefunc_net T (params w) h cov)) as (Hs & Hl & Hr & Ht').
      destruct (res (run_solver datasets c
                       (k (odefunc_net T (params w) h cov)) w)) eqn:Er; cbn.
      all: repeat split; auto.
      all: try (constructor; [exists t; auto | exact Hl]).
      all: try discriminate.
    + repeat split; auto.
      * constructor; [exists t; auto | constructor].
      * discriminate.
      * intros _ Hlook. exfalso. now apply (Hlook t Ht).
Qed.

Lemma solver_spec_any {A} (s : Solver A) :
  solver_spec (fun _ => True) (fun _ => True) false s.
Proof. induction s; constructor; auto. Qed.

Lemma run_solver_frame {A} c (s : Solver A) (w : World T) :
  st (run_solver datasets c s w) = w /\
  Forall (fun e => exists t, e = entry_of w (Query c t))
         (log (run_solver datasets c s w)).
Proof.
  destruct (run_solver_spec c w (solver_spec_any s)) as (Hs & Hl & _).
  split; [exact Hs|]. eapply Forall_impl; [|exact Hl].
  intros e (t & -> & _). now exists t.
Qed.

(** What a forward call does, case by case. *)
Lemma forward_unfold c weather infect time (w : World T) :
  forward datasets hyperparams c weather infect time w =
  match cat_features weather infect with
  | None => {| res := None; st := w; log := [] |}
  | Some data_window =>
      if (hidden_dims hyperparams <? 0)%Z
      then {| res := None; st := w; log := [] |}
      else
        let n := Z.to_nat (hidden_dims hyperparams) in
        let h_init := map (randn T) (seq (rng_pos w) n) in
        let w1 := with_rng w n in
        let x := flip0 data_window in
        match index0 (squeeze_time time) with
        | None => {| res := None; st := w1;
                     log := [entry_of w1 (Encode c x h_init)] |}
        | Some t0 =>
            let w2 := with_start w1 t0 in
            let ts := times_of (sub_scalar (squeeze_time time) t0) in
            let h := encoder T (params w) x h_init in
            let o := run_solver datasets c
                       (odeint T (solver hyperparams) (rtol hyperparams)
                               (atol hyperparams) h ts) w2 in
            {| res := option_map (map (decoder T (params w))) (res o);
               st := st o;
               log := entry_of w1 (Encode c x h_init)
                      :: entry_of w2 (Integrate c h ts)
                      :: log o ++
                         match res o with
                         | Some hs =>
                             [entry_of (st o)
                                (Return c (map (decoder T (params w)) hs))]
                         | None => []
                         end |}
        end
  end.
Proof.
  unfold forward, bind at 1.
  destruct (cat_features weather infect) as [dw|]; cbn; [|reflexivity].
  unfold torch_randn.
  destruct (hidden_dims hyperparams <? 0)%Z; cbn; [reflexivity|].
  destruct (index0 (squeeze_time time)) as [t0|]; [|reflexivity].
  unfold bind, lift, set_start_time, emit, get, put, ret; cbn.
  match goal with |- context [run_solver ?d ?c ?s ?w] =>
    set (o := run_solver d c s w) end.
  destruct (res o); cbn; rewrite ?app_nil_r; reflexivity.
Qed.

(** A time window of a single timestamp collapses under [squeeze()] and the
    call raises at [time_window[0]]. *)
Lemma forward_single_timestamp c weather infect t (w : World T) :
  res (forward datasets hyperparams c weather infect [t] w) = None.
Proof.
  rewrite forward_unfold.
  destruct (cat_features weather infect); [|reflexivity].
  destruct (hidden_dims hyperparams <? 0)%Z; reflexivity.
Qed.


(** Whenever a forward call returns, it returns one prediction per requested
    time, each of the decoder's output size. *)
Lemma forward_shape_partial c weather infect time (w : World T) prediction :
  odeint_grid_shape T ->
  (forall p h, length (decoder T p h) = Z.to_nat (output_dims hyperparams)) ->
  res (forward datasets hyperparams c weather infect time w)
  = Some prediction ->
  length prediction = length time /\
  Forall (fun p => length p = Z.to_nat (output_dims hyperparams)) prediction.
Proof.
  intros Hode Hdec. rewrite forward_unfold.
  destruct (cat_features weather infect) as [dw|]; [|discriminate].
  destruct (hidden_dims hyperparams <? 0)%Z; [discriminate|]. cbn zeta.
  destruct (index0 (squeeze_time time)) as [t0|] eqn:E0; [|discriminate].
  apply index0_some in E0 as (_ & _ & Ets). rewrite Ets. cbn [res].
  match goal with
  | |- context [run_solver ?d ?c (odeint T ?m ?r ?a ?h ?ts) ?w'] =>
    destruct (run_solver_spec c w' (Hode m r a h ts)) as (_ & _ & Hr & _);
    destruct (res (run_solver d c (odeint T m r a h ts) w')) as [hs|];
    [|discriminate]
  end.
  intros [= <-]. specialize (Hr hs eq_refl).
  rewrite length_map in *. split; [exact Hr|].
  apply Forall_forall. intros p Hp. apply in_map_iff in Hp as (h & <- & _).
  apply Hdec.
Qed.




End ForwardFacts.

(** ** Reasoning about runs *)

Section MonadFacts.

Variable T : Torch.

Lemma triple_bind {A B} (P : World T -> Prop) L (m : M T A)
    (f : A -> M T B) Q1 Q2 :
  triple P m L Q1 ->
  (forall a, triple (Q1 a) (f a) L Q2) ->
  triple P (bind m f) L Q2.
Proof.
  intros Hm Hf w Hw. destruct (Hm w Hw) as [Hl Hr]. unfold bind.
  destruct (res (m w)) as [a|] eqn:E; cbn.
  - destruct (Hf a (st (m w)) (Hr a eq_refl)) as [Hl' Hr'].
    split; [apply Forall_app; auto | exact Hr'].
  - split; [exact Hl | discriminate].
Qed.

(** A successful [bind] ran both parts; its log is theirs, in order. *)
Lemma bind_some {A B} (m : M T A) (f : A -> M T B) w b :
  res (bind m f w) = Some b ->
  exists a,
    res (m w) = Some a /\
    res (f a (st (m w))) = Some b /\
    st (bind m f w) = st (f a (st (m w))) /\
    log (bind m f w) = log (m w) ++ log (f a (st (m w))).
Proof.
  unfold bind. destruct (res (m w)) as [a|]; cbn; [|discriminate].
  intros H. exists a. auto.
Qed.

Lemma bind_run {A B} (m : M T A) (f : A -> M T B) w a :
  res (m w) = Some a ->
  bind m f w =
  {| res := res (f a (st (m w))); st := st (f a (st (m w)));
     log := log (m w) ++ log (f a (st (m w))) |}.
Proof. unfold bind. now intros ->. Qed.

Lemma bind_fail {A B} (m : M T A) (f : A -> M T B) w :
  res (m w) = None ->
  bind m f w = {| res := None; st := st (m w); log := log (m w) |}.
Proof. unfold bind. now intros ->. Qed.

Lemma out_eta {A} (o : Out T A) :
  {| res := res o; st := st o; log := log o |} = o.
Proof. now destruct o. Qed.

Lemma bind_ret {A B} (a : A) (f : A -> M T B) w : bind (ret a) f w = f a w.
Proof. unfold bind; cbn. apply out_eta. Qed.

Lemma bind_get {B} (f : World T -> M T B) w : bind get f w = f w w.
Proof. unfold bind; cbn. apply out_eta. Qed.

Lemma bind_emit {B} e (f : unit -> M T B) w :
  bind (emit e) f w =
  {| res := res (f tt w); st := st (f tt w);
     log := entry_of w e :: log (f tt w) |}.
Proof. reflexivity. Qed.

Lemma bind_lift {A B} (o : option A) (f : A -> M T B) w :
  bind (lift o) f w =
  match o with
  | Some a => f a w
  | None => {| res := None; st := w; log := [] |}
  end.
Proof. destruct o; [apply bind_ret | reflexivity]. Qed.

Lemma bind_set_grads {B} g (f : unit -> M T B) w :
  bind (set_grads g) f w = f tt (with_grads w g).
Proof. unfold set_grads, bind; cbn. apply out_eta. Qed.

Lemma bind_set_params {B} p (f : unit -> M T B) w :
  bind (set_params p) f w = f tt (with_params w p).
Proof. unfold set_params, bind; cbn. apply out_eta. Qed.

End MonadFacts.

(** ** The trainer *)

Section TrainerFacts.

Variable T : Torch.
Variable datasets : split -> Data.
Variable hyperparams : Hyperparameters.

(** A forward call keeps the dataset reference, the parameters and the
    gradients, and all it logs comes from inside the call. *)
Lemma forward_frame c weather infect time (w : World T) :
  let o := forward datasets hyperparams c weather infect time w in
  odefunc_data (st o) = odefunc_data w /\
  params (st o) = params w /\
  grads (st o) = grads w /\
  Forall (fun e => live e = odefunc_data w /\ caller_of (what e) = Some c)
         (log o).
Proof.
  cbn zeta. rewrite forward_unfold.
  destruct (cat_features weather infect) as [dw|]; [|cbn; auto].
  destruct (hidden_dims hyperparams <? 0)%Z; [cbn; auto|]. cbn zeta.
  destruct (index0 (squeeze_time time)) as [t0|]; [|cbn; auto 10].
  match goal with
  | |- context [run_solver ?d ?c ?s ?w'] =>
    destruct (run_solver_frame d c s w') as [Hst Hlog];
    set (o := run_solver d c s w') in *
  end.
  cbn [st log]. rewrite Hst. cbn. repeat split.
  constructor; [cbn; auto|]. constructor; [cbn; auto|].
  apply Forall_app. split.
  - eapply Forall_impl; [|exact Hlog]. intros e [t ->]. cbn. auto.
  - destruct (res o); repeat constructor; cbn; auto.
Qed.

Lemma moves_bind {A B} d d1 d2 L (m : M T A) (f : A -> M T B) :
  moves T d d1 L m -> (forall a, moves T d1 d2 L (f a)) ->
  moves T d d2 L (bind m f).
Proof. intros Hm Hf. eapply triple_bind; [exact Hm | exact Hf]. Qed.

Lemma moves_ret {A} d L (a : A) : moves T d d L (@ret T A a).
Proof. intros w Hw. cbn. split; [constructor | auto]. Qed.

Lemma moves_lift {A} d L (o : option A) : moves T d d L (@lift T A o).
Proof.
  intros w Hw. destruct o; cbn; (split; [constructor|]); auto; discriminate.
Qed.

Lemma moves_get d L : moves T d d L (@get T).
Proof. intros w Hw. cbn. split; [constructor | auto]. Qed.

Lemma moves_emit d (L : Entry -> Prop) e :
  (forall s, L {| live := d; start := s; what := e |}) ->
  moves T d d L (@emit T e).
Proof.
  intros H w Hw. cbn. split; [|auto].
  constructor; [|constructor]. unfold entry_of. rewrite Hw. apply H.
Qed.

Lemma moves_set_data d d' L : moves T d d' L (@set_data T d').
Proof. intros w Hw. cbn. split; [constructor | auto]. Qed.

Lemma moves_set_grads d L (g : Grad T) : moves T d d L (set_grads g).
Proof. intros w Hw. cbn. split; [constructor | auto]. Qed.

Lemma moves_set_params d L (p : Params T) : moves T d d L (set_params p).
Proof. intros w Hw. cbn. split; [constructor | auto]. Qed.

Lemma moves_forward d (L : Entry -> Prop) c weather infect time :
  (forall e, live e = d -> caller_of (what e) = Some c -> L e) ->
  moves T d d L (forward datasets hyperparams c weather infect time).
Proof.
  intros H w Hw.
  destruct (forward_frame c weather infect time w) as (Hd & _ & _ & Hl).
  split.
  - eapply Forall_impl; [|exact Hl]. intros e [H1 H2]. apply H; congruence.
  - intros _ _. congruence.
Qed.

Ltac moves_step :=
  first
    [ apply moves_ret
    | apply moves_lift
    | apply moves_get
    | apply moves_set_grads
    | apply moves_set_params
    | apply moves_emit; intros ?; reflexivity
    | apply moves_forward; unfold live_rule, in_validation_forward;
      intros ? -> ->; reflexivity ].

Ltac moves_chain d :=
  repeat (apply moves_bind with (d1 := d); [moves_step | intros ?]);
  try moves_step.

Lemma train_window_live epoch i win total :
  moves T TrainSet TrainSet live_rule
        (train_window datasets hyperparams epoch i win total).
Proof. unfold train_window. moves_chain TrainSet. Qed.

Lemma train_windows_live epoch ws : forall i total,
  moves T TrainSet TrainSet live_rule
        (train_windows datasets hyperparams epoch i ws total).
Proof.
  induction ws as [|win ws IH]; intros i total; cbn.
  - apply moves_ret.
  - apply moves_bind with (d1 := TrainSet);
      [apply train_window_live | intros ?; apply IH].
Qed.

Lemma valid_window_live epoch i win total :
  moves T TrainSet TrainSet live_rule
        (valid_window datasets hyperparams epoch i win total).
Proof.
  unfold valid_window.
  apply moves_bind with (d1 := ValidSet); [apply moves_set_data | intros _].
  apply moves_bind with (d1 := ValidSet); [moves_step | intros ?].
  apply moves_bind with (d1 := TrainSet); [apply moves_set_data | intros _].
  moves_chain TrainSet.
Qed.

Lemma valid_windows_live epoch ws : forall i total,
  moves T TrainSet TrainSet live_rule
        (valid_windows datasets hyperparams epoch i ws total).
Proof.
  induction ws as [|win ws IH]; intros i total; cbn.
  - apply moves_ret.
  - apply moves_bind with (d1 := TrainSet);
      [apply valid_window_live | intros ?; apply IH].
Qed.

Lemma train_epoch_live epoch cv :
  moves T TrainSet TrainSet live_rule
        (train_epoch datasets hyperparams epoch cv).
Proof.
  unfold train_epoch.
  apply moves_bind with (d1 := TrainSet);
    [apply train_windows_live | intros ?].
  apply moves_bind with (d1 := TrainSet); [moves_step | intros ?].
  apply moves_bind with (d1 := TrainSet); [moves_step | intros ?].
  apply moves_bind with (d1 := TrainSet);
    [apply valid_windows_live | intros ?].
  apply moves_bind with (d1 := TrainSet); [moves_step | intros ?].
  apply moves_bind with (d1 := TrainSet); [moves_step | intros ?].
  destruct (improves _ _); moves_chain TrainSet.
Qed.

Lemma train_epochs_live epochs : forall cv,
  moves T TrainSet TrainSet live_rule
        (train_epochs datasets hyperparams epochs cv).
Proof.
  induction epochs as [|e es IH]; intros cv; cbn.
  - apply moves_ret.
  - apply moves_bind with (d1 := TrainSet);
      [apply train_epoch_live | intros ?; apply IH].
Qed.

(** C4. Starting from the model as [train] builds it (the vector field
    referring to the training dataset), every entry of the trainer's log shows
    the validation dataset as the live reference exactly when it was logged
    from inside a validation forward call, and the training dataset otherwise;
    each validation loss is therefore computed with the training dataset
    restored, and a run that completes ends on the training dataset. *)
Theorem train_live_dataset (w : World T) :
  odefunc_data w = TrainSet ->
  Forall (fun e => live e = if in_validation_forward (what e)
                            then ValidSet else TrainSet)
         (log (train datasets hyperparams w)) /\
  (forall e epoch i v,
     In e (log (train datasets hyperparams w)) ->
     what e = Loss (ValidCall epoch i) v -> live e = TrainSet) /\
  (forall e c x h_init,
     In e (log (train datasets hyperparams w)) ->
     what e = Encode c x h_init ->
     live e = if is_valid_call c then ValidSet else TrainSet) /\
  (forall cv, res (train datasets hyperparams w) = Some cv ->
     odefunc_data (st (train datasets hyperparams w)) = TrainSet).
Proof.
  intros Hw. destruct (train_epochs_live
    (seq 0 (Z.to_nat (num_epochs hyperparams)))
    {| all_train_avg_loss := []; all_valid_avg_loss := [];
       lowest_valid_avg_loss := None |} Hw) as [Hl Hr].
  unfold train. split; [exact Hl|]. rewrite Forall_forall in Hl. repeat split.
  - intros e epoch i v Hin He. specialize (Hl e Hin). unfold live_rule in Hl.
    now rewrite He in Hl.
  - intros e c x h Hin He. specialize (Hl e Hin). unfold live_rule in Hl.
    now rewrite He in Hl.
  - exact Hr.
Qed.

(** What a training iteration does, case by case. *)
Lemma train_window_unfold epoch i win total (w : World T) :
  let w0 := with_grads w (zero_grad T (grads w)) in
  let o := forward datasets hyperparams (TrainCall epoch i)
             (weather_window win) (infect_window win) (time_window win) w0 in
  let w2 := with_grads (st o) (backward T (params (st o)) win (grads (st o))) in
  let w3 := with_params w2 (optimizer_step T (params w2) (grads w2)) in
  train_window datasets hyperparams epoch i win total w =
  match res o with
  | None => {| res := None; st := st o;
               log := entry_of w0 (ZeroGrad epoch i) :: log o |}
  | Some infect_mu =>
      match neg_mean_log_prob T (std hyperparams) infect_mu
                              (infect_window win) with
      | None => {| res := None; st := st o;
                   log := entry_of w0 (ZeroGrad epoch i) :: log o |}
      | Some train_loss =>
          {| res := Some (fl_add total train_loss);
             st := w3;
             log := entry_of w0 (ZeroGrad epoch i)
                    :: log o
                    ++ [entry_of (st o) (Loss (TrainCall epoch i) train_loss);
                        entry_of w2 (Backward epoch i);
                        entry_of w3 (Step epoch i)] |}
      end
  end.
Proof.
  cbn zeta. unfold train_window.
  rewrite bind_get, bind_set_grads, bind_emit.
  destruct (res (forward datasets hyperparams (TrainCall epoch i)
              (weather_window win) (infect_window win) (time_window win)
              (with_grads w (zero_grad T (grads w))))) as [mu|] eqn:Eo.
  2:{ rewrite (bind_fail _ _ _ Eo). reflexivity. }
  rewrite (bind_run _ _ _ Eo). cbn [res st log].
  rewrite bind_lift.
  destruct (neg_mean_log_prob T (std hyperparams) mu (infect_window win)).
  2:{ cbn [res st log]. now rewrite app_nil_r. }
  rewrite bind_emit, bind_get, bind_set_grads, bind_emit, bind_get,
    bind_set_params, bind_emit.
  reflexivity.
Qed.

Lemma quiet_summaries l :
  Forall quiet l ->
  training_events l = [] /\ saved_epochs l = [] /\
  train_losses l = [] /\ train_averages l = [].
Proof.
  unfold training_events, saved_epochs, train_losses, train_averages.
  induction 1 as [|e l He _ IH]; [auto|]. cbn.
  destruct IH as (-> & -> & -> & ->). unfold quiet in He.
  destruct (what e) as [c ? ?|c ? ?|c ?|c ?| | c ?| | | | | ]; cbn;
    try contradiction; try destruct c; try contradiction; auto.
Qed.

(** A forward call that returns logs entries from inside the call and, last,
    the prediction it returns. *)
Lemma forward_returns c weather infect time (w : World T) prediction :
  res (forward datasets hyperparams c weather infect time w)
  = Some prediction ->
  exists l e,
    log (forward datasets hyperparams c weather infect time w) = l ++ [e] /\
    Forall quiet l /\ what e = Return c prediction.
Proof.
  rewrite forward_unfold.
  destruct (cat_features weather infect) as [dw|]; [|discriminate].
  destruct (hidden_dims hyperparams <? 0)%Z; [discriminate|]. cbn zeta.
  destruct (index0 (squeeze_time time)) as [t0|]; [|discriminate].
  match goal with
  | |- context [run_solver ?d ?c ?s ?w'] =>
    destruct (run_solver_frame d c s w') as [Hst Hlog];
    set (o := run_solver d c s w') in *
  end.
  cbn [res log]. destruct (res o) as [hs|]; [|discriminate].
  intros [= <-]. do 2 eexists. split; [|split].
  - rewrite 2!app_comm_cons. reflexivity.
  - constructor; [exact I|]. constructor; [exact I|].
    eapply Forall_impl; [|exact Hlog]. intros e [t ->]. exact I.
  - reflexivity.
Qed.

Lemma forward_quiet_unless_train c weather infect time (w : World T) :
  (forall epoch i, c <> TrainCall epoch i) ->
  Forall quiet (log (forward datasets hyperparams c weather infect time w)).
Proof.
  intros Hc.
  destruct (forward_frame c weather infect time w) as (_ & _ & _ & Hl).
  eapply Forall_impl; [|exact Hl]. intros e [_ He]. unfold quiet.
  destruct (what e); cbn in He; try discriminate; auto.
  injection He as ->. destruct c; auto. now destruct (Hc epoch i).
Qed.

Lemma training_events_app l1 l2 :
  training_events (l1 ++ l2) = training_events l1 ++ training_events l2.
Proof. unfold training_events. now rewrite map_app, filter_app. Qed.

Lemma saved_epochs_app l1 l2 :
  saved_epochs (l1 ++ l2) = saved_epochs l1 ++ saved_epochs l2.
Proof. apply flat_map_app. Qed.

Lemma train_losses_app l1 l2 :
  train_losses (l1 ++ l2) = train_losses l1 ++ train_losses l2.
Proof. apply flat_map_app. Qed.

Lemma train_averages_app l1 l2 :
  train_averages (l1 ++ l2) = train_averages l1 ++ train_averages l2.
Proof. apply flat_map_app. Qed.

Lemma neg_mean_log_prob_some scale prediction target loss :
  neg_mean_log_prob T scale prediction target = Some loss ->
  exists mu x,
    squeeze_column prediction = Some mu /\
    squeeze_column target = Some x /\
    length mu = length x /\
    loss = fl_neg (fl_mean (map (fun p => log_prob T (fst p) scale (snd p))
                                (combine mu x))).
Proof.
  unfold neg_mean_log_prob.
  destruct (squeeze_column prediction) as [mu|]; [|discriminate].
  destruct (squeeze_column target) as [x|]; [|discriminate].
  destruct (Nat.eqb_spec (length mu) (length x)); [|discriminate].
  intros [= <-]. exists mu, x. auto.
Qed.

(** What a completed training iteration logged. *)
Lemma train_window_summary epoch i win total (w : World T) total' :
  res (train_window datasets hyperparams epoch i win total w) = Some total' ->
  exists loss evs,
    total' = fl_add total loss /\
    train_losses (log (train_window datasets hyperparams epoch i win total w))
    = [loss] /\
    training_events
      (log (train_window datasets hyperparams epoch i win total w)) = evs /\
    training_block T (std hyperparams) (epoch, i, win) evs /\
    saved_epochs (log (train_window datasets hyperparams epoch i win total w))
    = [] /\
    train_averages
      (log (train_window datasets hyperparams epoch i win total w)) = [].
Proof.
  pose proof (train_window_unfold epoch i win total w) as E. cbn zeta in E.
  rewrite E. clear E.
  destruct (res (forward datasets hyperparams (TrainCall epoch i)
              (weather_window win) (infect_window win) (time_window win)
              (with_grads w (zero_grad T (grads w))))) as [mu|] eqn:Eo;
    [|discriminate].
  destruct (neg_mean_log_prob T (std hyperparams) mu (infect_window win))
    as [loss|] eqn:El; [|discriminate].
  cbn [res log]. intros [= <-].
  destruct (forward_returns _ _ _ _ _ Eo) as (l & e & Hlog & Hq & He).
  destruct (quiet_summaries Hq) as (Q1 & Q2 & Q3 & Q4).
  destruct (neg_mean_log_prob_some _ _ _ El) as (m & x & Hm & Hx & Hlen & ->).
  exists (fl_neg (fl_mean (map (fun p => log_prob T (fst p) (std hyperparams)
                                                   (snd p)) (combine m x)))).
  eexists. split; [reflexivity|]. rewrite Hlog.
  change (?a :: (l ++ [e]) ++ ?r) with ([a] ++ (l ++ [e]) ++ r).
  rewrite !train_losses_app, !training_events_app, !saved_epochs_app,
    !train_averages_app, Q1, Q2, Q3, Q4.
  unfold train_losses, training_events, saved_epochs, train_averages.
  cbn. rewrite He. cbn. repeat split.
  exists mu, m, x. auto.
Qed.

(** What a completed pass over the training windows logged. *)
Lemma train_windows_summary epoch ws : forall i total (w : World T) total',
  res (train_windows datasets hyperparams epoch i ws total w) = Some total' ->
  exists blocks,
    training_events
      (log (train_windows datasets hyperparams epoch i ws total w))
    = concat blocks /\
    Forall2 (training_block T (std hyperparams)) (jobs epoch i ws) blocks /\
    total' = fold_left fl_add
               (train_losses
                  (log (train_windows datasets hyperparams epoch i ws total w)))
               total /\
    length (train_losses
              (log (train_windows datasets hyperparams epoch i ws total w)))
    = length ws /\
    saved_epochs (log (train_windows datasets hyperparams epoch i ws total w))
    = [] /\
    train_averages
      (log (train_windows datasets hyperparams epoch i ws total w)) = [].
Proof.
  induction ws as [|win ws IH]; intros i total w total' H.
  - cbn in H |- *. injection H as <-. exists []. repeat split. constructor.
  - cbn [train_windows] in H |- *.
    apply bind_some in H as (t1 & E1 & E2 & _ & Hlog). rewrite Hlog.
    destruct (train_window_summary _ _ _ _ _ E1)
      as (loss & evs & -> & Hl & He & Hb & Hs & Ha).
    destruct (IH _ _ _ _ E2) as (blocks & He' & Hb' & -> & Hn & Hs' & Ha').
    exists (evs :: blocks).
    rewrite training_events_app, train_losses_app, saved_epochs_app,
      train_averages_app, He, He', Hl, Hs, Hs', Ha, Ha'.
    repeat split.
    + unfold jobs. cbn [length seq combine map fst snd].
      constructor; assumption.
    + cbn [length app]. now rewrite Hn.
Qed.

Lemma only_bind {A B} L (m : M T A) (f : A -> M T B) :
  only T L m -> (forall a, only T L (f a)) -> only T L (bind m f).
Proof.
  intros Hm Hf w. unfold bind. specialize (Hm w).
  destruct (res (m w)) as [a|]; cbn; [|exact Hm].
  apply Forall_app. split; [exact Hm | apply Hf].
Qed.

Lemma only_silent {A} L (m : M T A) :
  (forall w, log (m w) = []) -> only T L m.
Proof. intros H w. rewrite H. constructor. Qed.

Lemma lift_silent {A} (o : option A) (w : World T) : log (lift o w) = [].
Proof. now destruct o. Qed.

Lemma valid_window_quiet epoch i win total :
  only T quiet (valid_window datasets hyperparams epoch i win total).
Proof.
  unfold valid_window.
  apply only_bind; [now apply only_silent | intros _].
  apply only_bind; [|intros mu].
  { intros w. now apply forward_quiet_unless_train. }
  apply only_bind; [now apply only_silent | intros _].
  apply only_bind; [apply only_silent, lift_silent | intros loss].
  apply only_bind; [|intros _; now apply only_silent].
  intros w. repeat constructor.
Qed.

Lemma valid_windows_quiet epoch ws : forall i total,
  only T quiet (valid_windows datasets hyperparams epoch i ws total).
Proof.
  induction ws as [|win ws IH]; intros i total; cbn.
  - now apply only_silent.
  - apply only_bind; [apply valid_window_quiet | intros ?; apply IH].
Qed.

(** What a completed epoch logged and how it changed the running curves. *)
Lemma train_epoch_summary epoch cv (w : World T) cv' :
  res (train_epoch datasets hyperparams epoch cv w) = Some cv' ->
  exists blocks train_avg_loss valid_avg_loss,
    training_events (log (train_epoch datasets hyperparams epoch cv w))
    = concat blocks /\
    Forall2 (training_block T (std hyperparams))
            (jobs epoch 0 (windows (train_data datasets))) blocks /\
    length (train_losses (log (train_epoch datasets hyperparams epoch cv w)))
    = length (windows (train_data datasets)) /\
    py_div (fold_left fl_add
              (train_losses (log (train_epoch datasets hyperparams epoch cv w)))
              (Fin 0))
           (num_windows (train_data datasets)) = Some train_avg_loss /\
    train_averages (log (train_epoch datasets hyperparams epoch cv w))
    = [train_avg_loss] /\
    saved_epochs (log (train_epoch datasets hyperparams epoch cv w))
    = (if improves (lowest_valid_avg_loss cv) valid_avg_loss
       then [epoch] else []) /\
    all_train_avg_loss cv' = all_train_avg_loss cv ++ [train_avg_loss] /\
    all_valid_avg_loss cv' = all_valid_avg_loss cv ++ [valid_avg_loss] /\
    lowest_valid_avg_loss cv'
    = next_lowest (lowest_valid_avg_loss cv) valid_avg_loss.
Proof.
  unfold train_epoch.
  destruct (res (train_windows datasets hyperparams epoch 0
                   (windows (train_data datasets)) (Fin 0) w))
    as [total|] eqn:E1.
  2:{ rewrite (bind_fail _ _ _ E1). discriminate. }
  rewrite (bind_run _ _ _ E1). cbn [res log].
  destruct (train_windows_summary _ _ _ _ _ E1)
    as (blocks & He & Hb & -> & Hn & Hs & Ha).
  rewrite bind_lift.
  destruct (py_div _ (num_windows (train_data datasets))) as [ta|] eqn:E2;
    [|discriminate].
  rewrite bind_emit. cbn [res log].
  match goal with
  | |- context [bind (valid_windows ?d ?h ?e ?i ?ws ?t) ?f ?w'] =>
    pose proof (valid_windows_quiet e ws i t w') as Hq;
    destruct (res (valid_windows d h e i ws t w')) as [vtotal|] eqn:E3;
    [rewrite (bind_run _ _ _ E3) | rewrite (bind_fail _ _ _ E3); discriminate]
  end.
  destruct (quiet_summaries Hq) as (Q1 & Q2 & Q3 & Q4).
  cbn [res log]. rewrite bind_lift.
  destruct (py_div vtotal (num_windows (valid_data datasets))) as [va|];
    [|discriminate].
  rewrite bind_emit. cbn [res log]. intros H.
  exists blocks, ta, va.
  change (?a :: ?l ++ ?e :: ?r) with ([a] ++ l ++ [e] ++ r).
  rewrite !training_events_app, !train_losses_app, !saved_epochs_app,
    !train_averages_app, He, Hs, Ha, Q1, Q2, Q3, Q4.
  unfold next_lowest.
  destruct (improves (lowest_valid_avg_loss cv) va);
    rewrite ?bind_emit in *; cbn [res log ret] in *;
    injection H as <-; cbn; rewrite ?app_nil_r; repeat split; auto.
Qed.

(** What a completed run of the epoch loop logged. *)
Lemma train_epochs_summary epochs : forall cv (w : World T) cv',
  res (train_epochs datasets hyperparams epochs cv w) = Some cv' ->
  exists blocks vs,
    training_events (log (train_epochs datasets hyperparams epochs cv w))
    = concat blocks /\
    Forall2 (training_block T (std hyperparams))
            (schedule epochs (windows (train_data datasets))) blocks /\
    all_valid_avg_loss cv' = all_valid_avg_loss cv ++ vs /\
    length vs = length epochs /\
    saved_epochs (log (train_epochs datasets hyperparams epochs cv w))
    = checkpoints (lowest_valid_avg_loss cv) epochs vs /\
    all_train_avg_loss cv'
    = all_train_avg_loss cv
      ++ train_averages (log (train_epochs datasets hyperparams epochs cv w)).
Proof.
  induction epochs as [|e es IH]; intros cv w cv' H.
  - cbn in H |- *. injection H as <-. exists [], [].
    rewrite !app_nil_r. repeat split. constructor.
  - cbn [train_epochs] in H |- *.
    apply bind_some in H as (cv1 & E1 & E2 & _ & Hlog). rewrite Hlog.
    destruct (train_epoch_summary _ _ _ E1)
      as (b1 & ta & va & He & Hb & _ & _ & Ha & Hs & Ht & Hv & Hl).
    destruct (IH _ _ _ E2) as (b2 & vs & He' & Hb' & Hv' & Hn & Hs' & Ht').
    exists (b1 ++ b2), (va :: vs).
    rewrite training_events_app, saved_epochs_app, train_averages_app,
      He, He', Hs, Hs', Ha, Hv', Hv, Ht', Ht, Hl, concat_app, <- !app_assoc.
    repeat split.
    + cbn [schedule flat_map]. apply Forall2_app; assumption.
    + cbn. now rewrite Hn.
Qed.

End TrainerFacts.

(** ** Comparisons of floats and the checkpoint decisions *)

Lemma fl_ltb_irrefl x : fl_ltb x x = false.
Proof.
  destruct x; cbn; auto. destruct (Qlt_le_dec q q); auto. lra.
Qed.

Lemma fl_ltb_trans x y z :
  fl_ltb x y = true -> fl_ltb y z = true -> fl_ltb x z = true.
Proof.
  destruct x as [a| | |], y as [b| | |], z as [c| | |]; cbn; auto;
    try discriminate.
  destruct (Qlt_le_dec a b), (Qlt_le_dec b c), (Qlt_le_dec a c); auto;
    try discriminate. lra.
Qed.


(** The lowest value kept by the loop is one of the values seen, and none of
    them is below it. *)
Lemma lowest_is_minimal l :
  match fold_left next_lowest l None with
  | None => l = []
  | Some m => In m l /\ forall x, In x l -> fl_ltb x m = false
  end.
Proof.
  induction l as [|v l IH] using rev_ind; [reflexivity|].
  rewrite fold_left_app. cbn.
  destruct (fold_left next_lowest l None) as [m|].
  - destruct IH as [Hin Hmin]. unfold next_lowest. cbn.
    destruct (fl_ltb v m) eqn:E.
    + split; [apply in_or_app; right; now left|].
      intros x Hx. apply in_app_or in Hx as [Hx|[<-|[]]].
      * destruct (fl_ltb x v) eqn:E'; [|reflexivity].
        rewrite <- (Hmin x Hx). symmetry. now apply fl_ltb_trans with v.
      * apply fl_ltb_irrefl.
    + split; [apply in_or_app; now left|].
      intros x Hx. apply in_app_or in Hx as [Hx|[<-|[]]]; auto.
  - subst l. cbn. split; [now left|]. intros x [<-|[]]. apply fl_ltb_irrefl.
Qed.


Lemma checkpoints_subset lo es vs e :
  In e (checkpoints lo es vs) -> In e es.
Proof.
  revert lo vs; induction es as [|e0 es IH]; intros lo [|v vs] H; cbn in H;
    try contradiction.
  apply in_app_or in H as [H|H].
  - destruct (improves lo v); [|contradiction]. destruct H as [<-|[]].
    now left.
  - right. eapply IH. exact H.
Qed.




(** ** Sums with non-finite terms *)








(** ** Counting optimizer steps *)




(** ** The trainer's guarantees *)

Section TrainerClaims.

Variable T : Torch.
Variable datasets : split -> Data.
Variable hyperparams : Hyperparameters.

Lemma train_summary (w : World T) cv :
  res (train datasets hyperparams w) = Some cv ->
  exists blocks,
    training_events (log (train datasets hyperparams w)) = concat blocks /\
    Forall2 (training_block T (std hyperparams))
            (schedule (seq 0 (Z.to_nat (num_epochs hyperparams)))
                      (windows (train_data datasets))) blocks /\
    length (all_valid_avg_loss cv) = Z.to_nat (num_epochs hyperparams) /\
    saved_epochs (log (train datasets hyperparams w))
    = checkpoints None (seq 0 (length (all_valid_avg_loss cv)))
                  (all_valid_avg_loss cv) /\
    all_train_avg_loss cv
    = train_averages (log (train datasets hyperparams w)).
Proof.
  unfold train. intros H.
  destruct (train_epochs_summary _ _ _ _ _ H)
    as (blocks & vs & He & Hb & Hv & Hn & Hs & Ht).
  cbn in Hv, Hs, Ht. rewrite length_seq in Hn.
  exists blocks. rewrite Hv, Hn. auto.
Qed.




End TrainerClaims.

(** ** The evaluator *)

Lemma Sorted_leb_le l :
  Sorted (fun x y => is_true (x <=? y)%nat) l -> Sorted le l.
Proof.
  induction 1 as [|a l Hs IH Hh]; constructor; auto.
  destruct Hh as [|b l Hab]; constructor. now apply Nat.leb_le.
Qed.




(** Whatever the datasets, the prediction is rescaled with the training
    statistics and the ground truth with the test statistics. *)
Lemma denormalization_statistics datasets (x : mat) :
  pred_infect_of datasets x
  = scale_shift (infect_stds (datasets TrainSet))
                (infect_means (datasets TrainSet)) x /\
  gt_infect_of datasets x
  = scale_shift (infect_stds (datasets TestSet))
                (infect_means (datasets TestSet)) x.
Proof. split; reflexivity. Qed.

(** ** The concrete instance meets the integrator contracts *)

Lemma solver_spec_map {A B} (f : A -> B) P (R : A -> Prop) (R' : B -> Prop)
    b (s : Solver A) :
  (forall a, R a -> R' (f a)) ->
  solver_spec P R b s -> solver_spec P R' b (solver_map f s).
Proof.
  intros Hf. induction 1 as [a Ha | Hb | t h k Ht _ IH]; cbn.
  - constructor. auto.
  - now constructor.
  - constructor; auto.
Qed.

Lemma solver_spec_weaken {A} (P P' : Q -> Prop) (R R' : A -> Prop) b
    (s : Solver A) :
  (forall t, P t -> P' t) -> (forall a, R a -> R' a) ->
  solver_spec P R true s -> solver_spec P' R' b s.
Proof.
  intros HP HR. induction 1 as [a Ha | Hb | t h k Ht _ IH].
  - constructor. auto.
  - discriminate.
  - constructor; auto.
Qed.

Lemma euler_steps_spec (P : Q -> Prop) ts : forall y t0,
  P t0 -> Forall P ts ->
  solver_spec P (fun hs => length hs = length ts) true (euler_steps y t0 ts).
Proof.
  induction ts as [|t1 ts IH]; intros y t0 H0 Hall; cbn.
  - now constructor.
  - inversion Hall as [|? ? H1 Hall']; subst.
    constructor; [exact H0|]. intros d.
    eapply solver_spec_map; [|apply IH; assumption].
    intros hs Hhs. cbn. now rewrite Hhs.
Qed.

Lemma euler_spec (P : Q -> Prop) y ts :
  ts <> [] -> Forall P ts ->
  solver_spec P (fun hs => length hs = length ts) true (euler y ts).
Proof.
  destruct ts as [|t0 ts]; [congruence|]. intros _ Hall.
  inversion Hall as [|? ? H0 Hall']; subst. cbn [euler].
  eapply solver_spec_map; [|apply euler_steps_spec; eassumption].
  intros hs Hhs. cbn. now rewrite Hhs.
Qed.



Lemma toy_grid_shape table : odeint_grid_shape (toy table).
Proof.
  intros m r a h ts. cbn [odeint toy].
  destruct ts as [|t0 ts]; [now constructor|].
  eapply solver_spec_weaken; [| |apply euler_spec with (P := fun _ => True)].
  - auto.
  - auto.
  - discriminate.
  - apply Forall_forall. auto.
Qed.


(** ** Concrete runs *)







Lemma train_live_dataset_witness :
  Forall (fun e => live e = if in_validation_forward (what e)
                            then ValidSet else TrainSet)
         (log (toy_train 1 table_c3 5)).
Proof.
  apply (@train_live_dataset (toy (table_of table_c3)) (toy_datasets 1)
           (toy_hp 5) (toy_world (table_of table_c3))).
  reflexivity.
Defined.





(** ** The job identifier *)

Section JobIdFacts.

Local Open Scope string_scope.

Lemma occurs_append c a b : occurs c (a ++ b) = occurs c a || occurs c b.
Proof.
  induction a as [|x a IH]; cbn; [reflexivity|].
  now rewrite IH, orb_assoc.
Qed.

(** Two strings cut at the first occurrence of a separator agree piece by
    piece. *)
Lemma append_split c a a' r r' :
  occurs c a = false -> occurs c a' = false ->
  a ++ String c r = a' ++ String c r' -> a = a' /\ r = r'.
Proof.
  revert a'; induction a as [|x a IH]; intros [|y a'] Ha Ha' E; cbn in *.
  - injection E as <-. auto.
  - injection E as <- _. rewrite Ascii.eqb_refl in Ha'. discriminate.
  - injection E as -> _. rewrite Ascii.eqb_refl in Ha. discriminate.
  - injection E as <- E. apply orb_false_elim in Ha as [_ Ha].
    apply orb_false_elim in Ha' as [_ Ha'].
    destruct (IH a' Ha Ha' E) as [<- <-]. auto.
Qed.

Lemma uint_plain c d :
  occurs c "0123456789" = false ->
  occurs c (NilEmpty.string_of_uint d) = false.
Proof.
  cbn [occurs]. intros H.
  repeat (apply orb_false_elim in H as [? H]).
  induction d; cbn [occurs NilEmpty.string_of_uint]; rewrite ?IHd; auto;
    match goal with E : Ascii.eqb _ c = false |- _ => now rewrite E end.
Qed.

Lemma str_int_plain c z :
  occurs c "0123456789-" = false -> occurs c (str_int z) = false.
Proof.
  intros H.
  assert (Hd : occurs c "0123456789" = false).
  { cbn [occurs] in H |- *. repeat (apply orb_false_elim in H as [? H]).
    repeat (apply orb_false_intro; [assumption|]). reflexivity. }
  assert (Hm : Ascii.eqb "-" c = false).
  { cbn [occurs] in H. repeat (apply orb_false_elim in H as [? H]).
    assumption. }
  assert (Hu : forall d, occurs c (NilZero.string_of_uint d) = false).
  { intros d. destruct d;
      try (unfold NilZero.string_of_uint; now apply uint_plain).
    change (NilZero.string_of_uint Nil) with (NilEmpty.string_of_uint (D0 Nil)).
    now apply uint_plain. }
  unfold str_int. destruct (Z.to_int z); cbn [NilZero.string_of_int occurs].
  - apply Hu.
  - now rewrite Hm, Hu.
Qed.

Lemma str_int_inj a b : str_int a = str_int b -> a = b.
Proof.
  unfold str_int. intros E. apply DecimalZ.to_int_inj.
  assert (Hn : forall z, Z.to_int z <> Pos Nil /\ Z.to_int z <> Neg Nil).
  { intros [|p|p]; cbn; split; try discriminate; intros [= H];
      now apply DecimalPos.Unsigned.to_uint_nonnil in H. }
  apply (f_equal NilZero.int_of_string) in E.
  rewrite !NilZero.isi in E by apply Hn. now injection E.
Qed.

Lemma str_int_nonempty z : str_int z <> "".
Proof.
  unfold str_int.
  assert (Hu : forall d, NilZero.string_of_uint d <> "")
    by (intros d; destruct d; discriminate).
  destruct (Z.to_int z); cbn; [apply Hu | discriminate].
Qed.

Lemma join_comma_cons p q r :
  join_comma (p :: q :: r) = p ++ "," ++ " " ++ join_comma (q :: r).
Proof. reflexivity. Qed.

Lemma join_comma_plain c xs :
  occurs c "0123456789-, " = false ->
  occurs c (join_comma (map str_int xs)) = false.
Proof.
  intros H.
  assert (Hi : forall z, occurs c (str_int z) = false).
  { intros z. apply str_int_plain. cbn [occurs] in H |- *.
    repeat (apply orb_false_elim in H as [? H]).
    repeat (apply orb_false_intro; [assumption|]). reflexivity. }
  assert (Hc : Ascii.eqb "," c = false /\ Ascii.eqb " " c = false).
  { cbn [occurs] in H. repeat (apply orb_false_elim in H as [? H]). auto. }
  destruct Hc as [Hc Hs].
  induction xs as [|x [|y xs] IH]; [reflexivity | apply Hi |].
  change (map str_int (x :: y :: xs))
    with (str_int x :: str_int y :: map str_int xs).
  rewrite join_comma_cons, occurs_append, Hi. cbn [append occurs orb].
  rewrite Hc, Hs. exact IH.
Qed.

Lemma join_comma_inj xs : forall ys,
  join_comma (map str_int xs) = join_comma (map str_int ys) -> xs = ys.
Proof.
  assert (Hcomma : forall z, occurs "," (str_int z) = false)
    by (intros z; now apply str_int_plain).
  induction xs as [|x [|x' xs] IH]; intros [|y [|y' ys]] E.
  - reflexivity.
  - cbn in E. symmetry in E. now apply str_int_nonempty in E.
  - change (map str_int (y :: y' :: ys))
      with (str_int y :: str_int y' :: map str_int ys) in E.
    rewrite join_comma_cons in E. cbn [map join_comma] in E.
    pose proof (str_int_nonempty y) as Hy.
    destruct (str_int y); [congruence | discriminate].
  - cbn in E. now apply str_int_nonempty in E.
  - cbn in E. apply str_int_inj in E. now subst.
  - change (map str_int (y :: y' :: ys))
      with (str_int y :: str_int y' :: map str_int ys) in E.
    rewrite join_comma_cons in E. cbn [map join_comma] in E.
    apply (f_equal (occurs ",")) in E. rewrite Hcomma, occurs_append in E.
    cbn in E. rewrite orb_true_r in E. discriminate.
  - change (map str_int (x :: x' :: xs))
      with (str_int x :: str_int x' :: map str_int xs) in E.
    rewrite join_comma_cons in E. cbn [map join_comma] in E.
    pose proof (str_int_nonempty x) as Hx.
    destruct (str_int x); [congruence | discriminate].
  - change (map str_int (x :: x' :: xs))
      with (str_int x :: str_int x' :: map str_int xs) in E.
    rewrite join_comma_cons in E. cbn [map join_comma] in E.
    apply (f_equal (occurs ",")) in E. rewrite Hcomma, occurs_append in E.
    cbn in E. rewrite orb_true_r in E. discriminate.
  - change (map str_int (x :: x' :: xs))
      with (str_int x :: str_int x' :: map str_int xs) in E.
    change (map str_int (y :: y' :: ys))
      with (str_int y :: str_int y' :: map str_int ys) in E.
    rewrite !join_comma_cons in E. cbn [append] in E.
    apply append_split in E as [Exy E]; auto.
    injection E as E. apply str_int_inj in Exy. subst y.
    f_equal. apply IH. exact E.
Qed.

Lemma str_list_inj xs ys : str_list xs = str_list ys -> xs = ys.
Proof.
  unfold str_list. cbn [append]. intros [= E].
  apply append_split in E as [E _].
  - now apply join_comma_inj.
  - now apply join_comma_plain.
  - now apply join_comma_plain.
Qed.

Lemma str_list_plain xs : occurs "_" (str_list xs) = false.
Proof.
  unfold str_list. cbn [append occurs]. rewrite occurs_append.
  rewrite join_comma_plain by reflexivity. reflexivity.
Qed.

Lemma format_1e_pos_plain q : occurs "_" (format_1e_pos q) = false.
Proof.
  unfold format_1e_pos. destruct (norm10 700 q 0) as [m e].
  destruct (round_half_even (m * 10) =? 100)%Z;
    unfold str_exponent; rewrite !occurs_append;
    rewrite !str_int_plain by reflexivity;
    repeat match goal with |- context [if ?b then _ else _] =>
             destruct b end; reflexivity.
Qed.

Lemma format_1e_plain x : occurs "_" (format_1e x) = false.
Proof.
  destruct x as [q| | |]; [|reflexivity..]. unfold format_1e.
  destruct (Qsign q).
  - reflexivity.
  - rewrite occurs_append, format_1e_pos_plain. reflexivity.
  - apply format_1e_pos_plain.
Qed.

(** C9 (as amended). The job identifier is a function of the listed fields,
    and for region and solver names without an underscore (and a float [repr]
    that prints none) two identifiers are equal exactly when the
    hyperparameters agree on region, solver, the three layer-width lists,
    hidden size, window length and epoch count, on the learning rate as
    rendered with two significant digits, and on the printed tolerances. *)
Theorem job_id_equal_iff (float_repr : pyfloat -> string) h1 h2 :
  (forall x, occurs "_" (float_repr x) = false) ->
  occurs "_" (region h1) = false -> occurs "_" (solver h1) = false ->
  occurs "_" (region h2) = false -> occurs "_" (solver h2) = false ->
  get_job_id float_repr h1 = get_job_id float_repr h2 <->
  region h1 = region h2 /\
  solver h1 = solver h2 /\
  format_1e (lr h1) = format_1e (lr h2) /\
  encoder_fc_dims h1 = encoder_fc_dims h2 /\
  hidden_dims h1 = hidden_dims h2 /\
  odefunc_fc_dims h1 = odefunc_fc_dims h2 /\
  decoder_fc_dims h1 = decoder_fc_dims h2 /\
  window_length h1 = window_length h2 /\
  num_epochs h1 = num_epochs h2 /\
  float_repr (rtol h1) = float_repr (rtol h2) /\
  float_repr (atol h1) = float_repr (atol h2).
Proof.
  intros Hrepr Hr1 Hs1 Hr2 Hs2. unfold get_job_id. split.
  - generalize (@str_list_inj (encoder_fc_dims h1) (encoder_fc_dims h2))
               (@str_list_inj (odefunc_fc_dims h1) (odefunc_fc_dims h2))
               (@str_list_inj (decoder_fc_dims h1) (decoder_fc_dims h2))
               (str_list_plain (encoder_fc_dims h1))
               (str_list_plain (encoder_fc_dims h2))
               (str_list_plain (odefunc_fc_dims h1))
               (str_list_plain (odefunc_fc_dims h2))
               (str_list_plain (decoder_fc_dims h1))
               (str_list_plain (decoder_fc_dims h2)).
    generalize (str_list (encoder_fc_dims h1)) (str_list (encoder_fc_dims h2))
               (str_list (odefunc_fc_dims h1)) (str_list (odefunc_fc_dims h2))
               (str_list (decoder_fc_dims h1)) (str_list (decoder_fc_dims h2)).
    intros e1 e2 o1 o2 d1 d2 Ie Io Id Pe1 Pe2 Po1 Po2 Pd1 Pd2.
    cbn [append]. intros E.
    apply append_split in E as [Eregion E]; auto.
    apply append_split in E as [Esolver E]; auto.
    injection E as E.
    apply append_split in E as [Elr E]; auto using format_1e_plain.
    injection E as E.
    apply append_split in E as [Eenc E]; auto.
    injection E as E.
    apply append_split in E as [Ehid E]; try (now apply str_int_plain).
    injection E as E.
    apply append_split in E as [Eode E]; auto.
    injection E as E.
    apply append_split in E as [Edec E]; auto.
    injection E as E.
    apply append_split in E as [Ewin E]; try (now apply str_int_plain).
    injection E as E.
    apply append_split in E as [Eep E]; try (now apply str_int_plain).
    injection E as E.
    apply append_split in E as [Ertol E]; auto.
    injection E as E.
    apply str_int_inj in Ehid, Ewin, Eep.
    repeat split; auto.
  - intros (-> & -> & -> & -> & -> & -> & -> & -> & -> & -> & ->).
    reflexivity.
Qed.

End JobIdFacts.

(** Learning rates 0.5 and 0.501953125 (both exact binary fractions) print as
    [5.0e-01]: two distinct hyperparameter tuples, one job identifier. *)
Lemma job_id_collision :
  hp_lr (Fin (1 # 2)) <> hp_lr (Fin (257 # 512)) /\
  forall float_repr,
    get_job_id float_repr (hp_lr (Fin (1 # 2)))
    = get_job_id float_repr (hp_lr (Fin (257 # 512))).
Proof.
  split; [discriminate|]. intros float_repr. vm_compute. reflexivity.
Qed.

(** Region and solver are joined without escaping: ("a_b", "c") and
    ("a", "b_c") give one identifier as well. *)
Lemma job_id_collision_underscore :
  forall float_repr h,
    get_job_id float_repr
      {| region := "a_b"; solver := "c"; lr := lr h;
         dropout_rate := dropout_rate h; input_dims := input_dims h;
         output_dims := output_dims h;
         encoder_fc_dims := encoder_fc_dims h; hidden_dims := hidden_dims h;
         odefunc_fc_dims := odefunc_fc_dims h;
         decoder_fc_dims := decoder_fc_dims h; std := std h;
         window_length := window_length h; num_epochs := num_epochs h;
         rtol := rtol h; atol := atol h |}
    = get_job_id float_repr
      {| region := "a"; solver := "b_c"; lr := lr h;
         dropout_rate := dropout_rate h; input_dims := input_dims h;
         output_dims := output_dims h;
         encoder_fc_dims := encoder_fc_dims h; hidden_dims := hidden_dims h;
         odefunc_fc_dims := odefunc_fc_dims h;
         decoder_fc_dims := decoder_fc_dims h; std := std h;
         window_length := window_length h; num_epochs := num_epochs h;
         rtol := rtol h; atol := atol h |}.
Proof. reflexivity. Qed.

Lemma job_id_equal_iff_witness :
  get_job_id format_1e (hp_lr (Fin (1 # 2)))
  = get_job_id format_1e (hp_lr (Fin (257 # 512))) <->
  format_1e (Fin (1 # 2)) = format_1e (Fin (257 # 512)).
Proof.
  pose proof (@job_id_equal_iff format_1e (hp_lr (Fin (1 # 2)))
                (hp_lr (Fin (257 # 512)))
                format_1e_plain eq_refl eq_refl eq_refl eq_refl) as H.
  split.
  - intros E. apply (proj1 H E).
  - intros E. apply (proj2 H). repeat split; exact E.
Defined.

(* ================================================================= *)
(** * Further properties of the code *)

(** ** The forward pass: preconditions and effects *)

Section ForwardExtras.

Variable T : Torch.
Variable datasets : split -> Data.
Variable hyperparams : Hyperparameters.

Lemma cat_features_none a b :
  length a <> length b -> cat_features a b = None.
Proof.
  intros H. destruct (cat_features a b) as [m|] eqn:E; [|reflexivity].
  apply cat_features_rows in E as ((E & _) & _). contradiction.
Qed.

(** X1. A forward call returns only if the covariate and target windows
    have the same number of rows, [hidden_dims] is not negative, and the time
    window has at least two entries; otherwise it raises. *)
Theorem forward_returns_only_if c weather infect time (w : World T)
    prediction :
  res (forward datasets hyperparams c weather infect time w)
  = Some prediction ->
  length weather = length infect /\
  (0 <= hidden_dims hyperparams)%Z /\
  (2 <= length time)%nat.
Proof.
  rewrite forward_unfold.
  destruct (cat_features weather infect) as [dw|] eqn:Ecat; [|discriminate].
  apply cat_features_rows in Ecat as ((Hrows & _) & _).
  destruct (Z.ltb_spec (hidden_dims hyperparams) 0); [discriminate|].
  cbn zeta.
  destruct (index0 (squeeze_time time)) as [t0|] eqn:E0; [|discriminate].
  apply index0_some in E0 as (Hlen & _ & _). auto.
Qed.


(** X3. With covariate and target windows of different numbers of rows the
    call raises at once: nothing is logged, no random value is drawn and the
    state is untouched. *)
Theorem forward_row_mismatch_raises c weather infect time (w : World T) :
  length weather <> length infect ->
  forward datasets hyperparams c weather infect time w
  = {| res := None; st := w; log := [] |}.
Proof.
  intros H. rewrite forward_unfold, (cat_features_none _ _ H). reflexivity.
Qed.

End ForwardExtras.

Lemma forward_returns_only_if_witness :
  length [[Fin 0]] = length [[Fin 0]] /\
  (0 <= hidden_dims (toy_hp 1))%Z /\
  (2 <= length [3; 4])%nat.
Proof.
  apply (@forward_returns_only_if (toy (table_of [Fin 1])) (toy_datasets 1)
           (toy_hp 1) (TrainCall 0 0) [[Fin 0]] [[Fin 0]] [3; 4]
           (toy_world (table_of [Fin 1])) [[Fin 1]; [Fin 1]]).
  vm_compute. reflexivity.
Defined.

Lemma forward_row_mismatch_raises_witness :
  forward (toy_datasets 1) (toy_hp 1) (TrainCall 0 0)
          [[Fin 0]; [Fin 0]] [[Fin 0]] [3; 4] (toy_world (table_of [Fin 1]))
  = {| res := None; st := toy_world (table_of [Fin 1]); log := [] |}.
Proof.
  apply (@forward_row_mismatch_raises (toy (table_of [Fin 1]))
           (toy_datasets 1) (toy_hp 1) (TrainCall 0 0)
           [[Fin 0]; [Fin 0]] [[Fin 0]] [3; 4]
           (toy_world (table_of [Fin 1]))).
  cbn. lia.
Defined.

(** ** The trainer: what changes the weights and what does not *)

Section TrainerExtras.

Variable T : Torch.
Variable datasets : split -> Data.
Variable hyperparams : Hyperparameters.

Lemma bind_set_data {B} d (f : unit -> M T B) w :
  bind (set_data d) f w = f tt (with_data w d).
Proof. unfold set_data, bind; cbn. apply out_eta. Qed.

Lemma same_weights_refl (w : World T) : same_weights w w.
Proof. split; reflexivity. Qed.

Lemma same_weights_trans (w1 w2 w3 : World T) :
  same_weights w1 w2 -> same_weights w2 w3 -> same_weights w1 w3.
Proof. intros [H1 H2] [H3 H4]. split; congruence. Qed.

Lemma stable_bind {A B} (m : M T A) (f : A -> M T B) :
  stable T (@same_weights T) m ->
  (forall a, stable T (@same_weights T) (f a)) ->
  stable T (@same_weights T) (bind m f).
Proof.
  intros Hm Hf w. unfold bind. specialize (Hm w).
  destruct (res (m w)) as [a|]; cbn; [|exact Hm].
  eapply same_weights_trans; [exact Hm | apply Hf].
Qed.

Lemma stable_still {A} (m : M T A) :
  (forall w, st (m w) = w) -> stable T (@same_weights T) m.
Proof. intros H w. rewrite H. apply same_weights_refl. Qed.

Lemma stable_lift {A} (o : option A) :
  stable T (@same_weights T) (@lift T A o).
Proof. apply stable_still. intros w. now destruct o. Qed.

Lemma stable_set_data d : stable T (@same_weights T) (@set_data T d).
Proof. intros w. split; reflexivity. Qed.

Lemma stable_forward c weather infect time :
  stable T (@same_weights T)
         (forward datasets hyperparams c weather infect time).
Proof.
  intros w.
  destruct (forward_frame datasets hyperparams c weather infect time w)
    as (_ & Hp & Hg & _).
  split; assumption.
Qed.

Lemma valid_window_stable epoch i win total :
  stable T (@same_weights T)
         (valid_window datasets hyperparams epoch i win total).
Proof.
  unfold valid_window.
  apply stable_bind; [apply stable_set_data | intros _].
  apply stable_bind; [apply stable_forward | intros mu].
  apply stable_bind; [apply stable_set_data | intros _].
  apply stable_bind; [apply stable_lift | intros loss].
  apply stable_bind; [now apply stable_still | intros _].
  now apply stable_still.
Qed.

(** X4. A pass over the validation windows never changes the parameters or
    the gradients, whether it completes or raises on the way. *)
Theorem validation_keeps_weights epoch ws : forall i total (w : World T),
  params (st (valid_windows datasets hyperparams epoch i ws total w))
  = params w /\
  grads (st (valid_windows datasets hyperparams epoch i ws total w))
  = grads w.
Proof.
  induction ws as [|win ws IH]; intros i total w; [split; reflexivity|].
  cbn [valid_windows].
  apply (@stable_bind _ _
           (valid_window datasets hyperparams epoch i win total)
           (fun t => valid_windows datasets hyperparams epoch (S i) ws t)).
  - apply valid_window_stable.
  - intros t w'. apply IH.
Qed.


(** X6. There is no restore on the error path: when the forward call of a
    validation window raises, the iteration raises with the vector field
    still referring to the validation dataset. *)
Theorem validation_failure_keeps_valid_set epoch i win total (w : World T) :
  res (forward datasets hyperparams (ValidCall epoch i)
         (firstn GT_STEPS_FOR_EXTRAPOLATION (weather_window win))
         (firstn GT_STEPS_FOR_EXTRAPOLATION (infect_window win))
         (time_window win) (with_data w ValidSet)) = None ->
  res (valid_window datasets hyperparams epoch i win total w) = None /\
  odefunc_data (st (valid_window datasets hyperparams epoch i win total w))
  = ValidSet.
Proof.
  intros Hf. unfold valid_window. rewrite bind_set_data.
  rewrite (bind_fail _ _ _ Hf). cbn [res st].
  destruct (forward_frame datasets hyperparams (ValidCall epoch i)
              (firstn GT_STEPS_FOR_EXTRAPOLATION (weather_window win))
              (firstn GT_STEPS_FOR_EXTRAPOLATION (infect_window win))
              (time_window win) (with_data w ValidSet)) as (Hd & _).
  split; [reflexivity | exact Hd].
Qed.

End TrainerExtras.

(** ** Checkpoints: order, values and the lowest average *)

Lemma checkpoints_above vs : forall lo s e,
  In e (checkpoints lo (seq s (length vs)) vs) ->
  (s <= e < s + length vs)%nat.
Proof.
  intros lo s e H. apply checkpoints_subset, in_seq in H. exact H.
Qed.

(** The loop's lowest value is the value of the last checkpointed epoch. *)
Lemma lowest_at_last_checkpoint vs : forall lo s,
  fold_left next_lowest vs lo =
  match rev (checkpoints lo (seq s (length vs)) vs) with
  | [] => lo
  | e :: _ => Some (nth (e - s) vs NaN)
  end.
Proof.
  induction vs as [|v vs IH]; intros lo s; [reflexivity|].
  cbn [length seq checkpoints fold_left]. rewrite rev_app_distr.
  rewrite (IH (next_lowest lo v) (S s)).
  destruct (rev (checkpoints (next_lowest lo v) (seq (S s) (length vs)) vs))
    as [|e l] eqn:E.
  - cbn [app]. unfold next_lowest. destruct (improves lo v); cbn [rev app].
    + now rewrite Nat.sub_diag.
    + reflexivity.
  - cbn [app].
    assert (He : In e (checkpoints (next_lowest lo v)
                         (seq (S s) (length vs)) vs))
      by (apply in_rev; rewrite E; now left).
    apply checkpoints_above in He.
    replace (e - s)%nat with (S (e - S s)) by lia. reflexivity.
Qed.

Lemma checkpoints_increasing vs : forall lo s,
  StronglySorted lt (checkpoints lo (seq s (length vs)) vs).
Proof.
  induction vs as [|v vs IH]; intros lo s; [constructor|].
  cbn [length seq checkpoints].
  assert (Hall : Forall (lt s)
            (checkpoints (next_lowest lo v) (seq (S s) (length vs)) vs)).
  { apply Forall_forall. intros e He. apply checkpoints_above in He. lia. }
  destruct (improves lo v); cbn [app]; [constructor; auto | apply IH].
Qed.

(** Every checkpointed value is strictly below the lowest value the loop
    started from. *)
Lemma checkpoints_below vs : forall lo s a e,
  lo = Some a ->
  In e (checkpoints lo (seq s (length vs)) vs) ->
  fl_ltb (nth (e - s) vs NaN) a = true.
Proof.
  induction vs as [|v vs IH]; intros lo s a e Hlo He; [contradiction|].
  cbn [length seq checkpoints] in He. apply in_app_or in He as [He|He].
  - destruct (improves lo v) eqn:Ei; [|contradiction].
    destruct He as [<-|[]]. rewrite Nat.sub_diag. subst lo. exact Ei.
  - pose proof (checkpoints_above _ _ _ _ He) as Hb.
    replace (e - s)%nat with (S (e - S s)) by lia. cbn [nth].
    unfold next_lowest in He. destruct (improves lo v) eqn:Ei.
    + apply fl_ltb_trans with v.
      * eapply IH; [reflexivity | exact He].
      * subst lo. exact Ei.
    + eapply IH; [exact Hlo | exact He].
Qed.

Lemma checkpoints_descend vs : forall lo s e1 e2,
  In e1 (checkpoints lo (seq s (length vs)) vs) ->
  In e2 (checkpoints lo (seq s (length vs)) vs) ->
  (e1 < e2)%nat ->
  fl_ltb (nth (e2 - s) vs NaN) (nth (e1 - s) vs NaN) = true.
Proof.
  induction vs as [|v vs IH]; intros lo s e1 e2 H1 H2 Hlt; [contradiction|].
  cbn [length seq checkpoints] in H1, H2.
  apply in_app_or in H1 as [H1|H1]; apply in_app_or in H2 as [H2|H2].
  - destruct (improves lo v); [|contradiction].
    destruct H1 as [<-|[]]. destruct H2 as [<-|[]]. lia.
  - destruct (improves lo v) eqn:Ei; [|contradiction].
    destruct H1 as [<-|[]]. rewrite Nat.sub_diag. cbn [nth].
    pose proof (checkpoints_above _ _ _ _ H2) as Hb.
    replace (e2 - s)%nat with (S (e2 - S s)) by lia. cbn [nth].
    eapply checkpoints_below; [|exact H2].
    unfold next_lowest. now rewrite Ei.
  - destruct (improves lo v); [|contradiction].
    destruct H2 as [<-|[]].
    pose proof (checkpoints_above _ _ _ _ H1). lia.
  - pose proof (checkpoints_above _ _ _ _ H1) as Hb1.
    pose proof (checkpoints_above _ _ _ _ H2) as Hb2.
    replace (e1 - s)%nat with (S (e1 - S s)) by lia.
    replace (e2 - s)%nat with (S (e2 - S s)) by lia. cbn [nth].
    eapply IH; eassumption.
Qed.

Lemma sorted_last_is_max (l : list nat) e :
  StronglySorted lt (l ++ [e]) -> forall x, In x (l ++ [e]) -> (x <= e)%nat.
Proof.
  induction l as [|a l IH]; intros Hs x Hx; cbn in *.
  - destruct Hx as [<-|[]]. lia.
  - apply StronglySorted_inv in Hs as [Hs Hall]. destruct Hx as [<-|Hx].
    + rewrite Forall_forall in Hall.
      assert (a < e)%nat by (apply Hall, in_or_app; right; now left). lia.
    + now apply IH.
Qed.

(** ** Completed and aborted runs of the epoch loop *)

Section EpochExtras.

Variable T : Torch.
Variable datasets : split -> Data.
Variable hyperparams : Hyperparameters.

Lemma train_epochs_curves epochs : forall cv (w : World T) cv',
  res (train_epochs datasets hyperparams epochs cv w) = Some cv' ->
  exists vs,
    all_valid_avg_loss cv' = all_valid_avg_loss cv ++ vs /\
    length vs = length epochs /\
    length (all_train_avg_loss cv')
    = (length (all_train_avg_loss cv) + length epochs)%nat /\
    lowest_valid_avg_loss cv'
    = fold_left next_lowest vs (lowest_valid_avg_loss cv).
Proof.
  induction epochs as [|e es IH]; intros cv w cv' H.
  - cbn in H. injection H as <-. exists []. rewrite app_nil_r. cbn. auto.
  - cbn [train_epochs] in H.
    apply bind_some in H as (cv1 & E1 & E2 & _ & _).
    destruct (train_epoch_summary _ _ _ _ _ E1)
      as (_ & ta & va & _ & _ & _ & _ & _ & _ & Ht & Hv & Hl).
    destruct (IH _ _ _ E2) as (vs & Hv' & Hn & Ht' & Hl').
    exists (va :: vs). rewrite Hv', Hv, Ht', Ht, Hl', Hl, <- app_assoc.
    rewrite length_app. cbn. repeat split; auto; lia.
Qed.

(** X7. A completed run holds exactly one average training loss and one
    average validation loss per epoch (none at all when [num_epochs] is zero
    or negative), so both curves can be plotted against
    [arange(num_epochs)]. *)
Theorem train_curve_lengths (w : World T) cv :
  res (train datasets hyperparams w) = Some cv ->
  length (all_train_avg_loss cv) = Z.to_nat (num_epochs hyperparams) /\
  length (all_valid_avg_loss cv) = Z.to_nat (num_epochs hyperparams).
Proof.
  unfold train. intros H.
  destruct (train_epochs_curves _ _ _ H) as (vs & Hv & Hn & Ht & _).
  cbn in Hv, Ht. rewrite length_seq in *. rewrite Hv. auto.
Qed.

(** X8. At the end of a completed run of at least one epoch, the lowest
    validation average kept by the loop is the average of the last epoch
    that wrote a checkpoint, and no epoch has an average strictly below it:
    the checkpoint left on disk is that of a best epoch. *)
Theorem last_checkpoint_is_best (w : World T) cv :
  res (train datasets hyperparams w) = Some cv ->
  (0 < num_epochs hyperparams)%Z ->
  exists m e,
    lowest_valid_avg_loss cv = Some m /\
    In e (saved_epochs (log (train datasets hyperparams w))) /\
    (forall e', In e' (saved_epochs (log (train datasets hyperparams w))) ->
       (e' <= e)%nat) /\
    nth e (all_valid_avg_loss cv) NaN = m /\
    forall x, In x (all_valid_avg_loss cv) -> fl_ltb x m = false.
Proof.
  intros H Hpos.
  destruct (train_summary _ _ _ H) as (_ & _ & _ & Hlen & Hs & _).
  unfold train in H.
  destruct (train_epochs_curves _ _ _ H) as (vs & Hv & _ & _ & Hl).
  cbn in Hv, Hl. subst vs.
  set (vl := all_valid_avg_loss cv) in *.
  set (saved := saved_epochs (log (train datasets hyperparams w))) in *.
  pose proof (lowest_is_minimal vl) as Hmin.
  pose proof (lowest_at_last_checkpoint vl None 0) as Hlast.
  rewrite <- Hs in Hlast.
  pose proof (checkpoints_increasing vl None 0) as Hinc.
  rewrite <- Hs in Hinc.
  rewrite <- Hl in Hmin, Hlast.
  destruct (lowest_valid_avg_loss cv) as [m|].
  - destruct Hmin as [_ Hmin].
    destruct (rev saved) as [|e l] eqn:Er; [discriminate|].
    injection Hlast as Hlast. rewrite Nat.sub_0_r in Hlast.
    assert (Es : saved = rev l ++ [e])
      by (rewrite <- (rev_involutive saved), Er; reflexivity).
    exists m, e. repeat split; auto.
    + rewrite Es. apply in_or_app. right. now left.
    + intros e' He'. rewrite Es in Hinc, He'.
      eapply sorted_last_is_max; eassumption.
  - exfalso. assert (length vl = 0%nat) by (rewrite Hmin; reflexivity). lia.
Qed.

(** X9. Of two epochs of a completed run that wrote a checkpoint, the later
    one has the strictly lower validation average: every checkpoint replaces
    a strictly worse one. *)
Theorem checkpoints_strictly_improve (w : World T) cv e1 e2 :
  res (train datasets hyperparams w) = Some cv ->
  In e1 (saved_epochs (log (train datasets hyperparams w))) ->
  In e2 (saved_epochs (log (train datasets hyperparams w))) ->
  (e1 < e2)%nat ->
  fl_ltb (nth e2 (all_valid_avg_loss cv) NaN)
         (nth e1 (all_valid_avg_loss cv) NaN) = true.
Proof.
  intros H H1 H2 Hlt.
  destruct (train_summary _ _ _ H) as (_ & _ & _ & _ & Hs & _).
  rewrite Hs in H1, H2.
  pose proof (@checkpoints_descend _ _ _ _ _ H1 H2 Hlt) as Hd.
  now rewrite !Nat.sub_0_r in Hd.
Qed.

Lemma only_emit (L : Entry -> Prop) e :
  (forall w : World T, L (entry_of w e)) -> only T L (@emit T e).
Proof. intros H w. cbn. constructor; [apply H | constructor]. Qed.

Lemma train_window_before_validation epoch i win total :
  only T before_validation
       (train_window datasets hyperparams epoch i win total).
Proof.
  assert (He : forall e,
             in_validation_forward e = false ->
             (forall ep, e <> Save ep) ->
             only T before_validation (@emit T e)).
  { intros e H1 H2. apply only_emit. intros w. split; assumption. }
  unfold train_window.
  apply only_bind; [now apply only_silent | intros w0].
  apply only_bind; [now apply only_silent | intros _].
  apply only_bind; [apply He; [reflexivity | discriminate] | intros _].
  apply only_bind; [|intros mu].
  { intros w.
    destruct (forward_frame datasets hyperparams (TrainCall epoch i)
                (weather_window win) (infect_window win) (time_window win) w)
      as (_ & _ & _ & Hl).
    eapply Forall_impl; [|exact Hl]. intros e [_ Hc]. split.
    - unfold in_validation_forward. now rewrite Hc.
    - intros ep E. rewrite E in Hc. discriminate. }
  apply only_bind; [apply only_silent, lift_silent | intros loss].
  apply only_bind; [apply He; [reflexivity | discriminate] | intros _].
  apply only_bind; [now apply only_silent | intros w1].
  apply only_bind; [now apply only_silent | intros _].
  apply only_bind; [apply He; [reflexivity | discriminate] | intros _].
  apply only_bind; [now apply only_silent | intros w2].
  apply only_bind; [now apply only_silent | intros _].
  apply only_bind; [apply He; [reflexivity | discriminate] | intros _].
  now apply only_silent.
Qed.

Lemma train_windows_before_validation epoch ws : forall i total,
  only T before_validation
       (train_windows datasets hyperparams epoch i ws total).
Proof.
  induction ws as [|win ws IH]; intros i total; cbn.
  - now apply only_silent.
  - apply only_bind; [apply train_window_before_validation | intros ?; apply IH].
Qed.

Lemma no_save_no_checkpoint l :
  Forall (fun e => forall ep, what e <> Save ep) l -> saved_epochs l = [].
Proof.
  unfold saved_epochs. induction 1 as [|e l He _ IH]; [reflexivity|]. cbn.
  rewrite IH. destruct (what e); try reflexivity. now destruct (He epoch).
Qed.

(** X10. With a training dataset of zero windows, a run of at least one
    epoch raises at the first average (division by zero) before any
    validation forward call and before any checkpoint. *)
Theorem train_without_training_windows (w : World T) :
  (0 < num_epochs hyperparams)%Z ->
  num_windows (train_data datasets) = 0%nat ->
  res (train datasets hyperparams w) = None /\
  Forall before_validation (log (train datasets hyperparams w)).
Proof.
  intros Hpos Hz. unfold train.
  destruct (Z.to_nat (num_epochs hyperparams)) as [|k] eqn:Ek; [lia|].
  cbn [seq train_epochs].
  set (cv0 := {| all_train_avg_loss := []; all_valid_avg_loss := [];
                 lowest_valid_avg_loss := None |}).
  assert (He : res (train_epoch datasets hyperparams 0 cv0 w) = None /\
               Forall before_validation
                      (log (train_epoch datasets hyperparams 0 cv0 w))).
  { unfold train_epoch.
    pose proof (train_windows_before_validation 0
                  (windows (train_data datasets)) 0 (Fin 0) w) as Hl.
    destruct (res (train_windows datasets hyperparams 0 0
                     (windows (train_data datasets)) (Fin 0) w))
      as [total|] eqn:E1.
    - rewrite (bind_run _ _ _ E1), bind_lift, Hz. cbn [py_div res log].
      rewrite app_nil_r. auto.
    - rewrite (bind_fail _ _ _ E1). cbn [res log]. auto. }
  destruct He as [Hr Hl]. rewrite (bind_fail _ _ _ Hr). cbn [res log]. auto.
Qed.

(** X11. With a validation dataset of zero windows, a run of at least one
    epoch raises in its first epoch (division by zero at the validation
    average) and never writes a checkpoint. *)
Theorem train_without_validation_windows (w : World T) :
  (0 < num_epochs hyperparams)%Z ->
  num_windows (valid_data datasets) = 0%nat ->
  res (train datasets hyperparams w) = None /\
  saved_epochs (log (train datasets hyperparams w)) = [].
Proof.
  intros Hpos Hz. unfold train.
  destruct (Z.to_nat (num_epochs hyperparams)) as [|k] eqn:Ek; [lia|].
  cbn [seq train_epochs].
  set (cv0 := {| all_train_avg_loss := []; all_valid_avg_loss := [];
                 lowest_valid_avg_loss := None |}).
  assert (He : res (train_epoch datasets hyperparams 0 cv0 w) = None /\
               saved_epochs (log (train_epoch datasets hyperparams 0 cv0 w))
               = []).
  { unfold train_epoch.
    pose proof (train_windows_before_validation 0
                  (windows (train_data datasets)) 0 (Fin 0) w) as Hl.
    assert (Hs : saved_epochs
                   (log (train_windows datasets hyperparams 0 0
                           (windows (train_data datasets)) (Fin 0) w)) = []).
    { apply no_save_no_checkpoint. eapply Forall_impl; [|exact Hl].
      intros e [_ H]. exact H. }
    destruct (res (train_windows datasets hyperparams 0 0
                     (windows (train_data datasets)) (Fin 0) w))
      as [total|] eqn:E1.
    2:{ rewrite (bind_fail _ _ _ E1). cbn [res log]. auto. }
    rewrite (bind_run _ _ _ E1), bind_lift.
    destruct (py_div total (num_windows (train_data datasets))) as [ta|].
    2:{ cbn [res log]. rewrite app_nil_r. auto. }
    rewrite bind_emit. cbn [res log].
    match goal with
    | |- context [bind (valid_windows ?d ?h ?e ?i ?ws ?t) ?f ?w'] =>
      pose proof (valid_windows_quiet d h e ws i t w') as Hq;
      destruct (res (valid_windows d h e i ws t w')) as [vtotal|] eqn:E3;
      [rewrite (bind_run _ _ _ E3), bind_lift, Hz
      | rewrite (bind_fail _ _ _ E3)]
    end.
    all: destruct (quiet_summaries Hq) as (_ & Q2 & _ & _).
    all: cbn [py_div res log]; rewrite ?app_nil_r.
    all: change (?a :: ?l) with ([a] ++ l).
    all: rewrite !saved_epochs_app, Hs, Q2; auto. }
  destruct He as [Hr Hl]. rewrite (bind_fail _ _ _ Hr). cbn [res log]. auto.
Qed.

End EpochExtras.

(** ** Index selection: the extreme drop rates *)

Lemma sorted_permutation_unique (l1 : list nat) : forall l2,
  StronglySorted le l1 -> StronglySorted le l2 -> Permutation l1 l2 ->
  l1 = l2.
Proof.
  induction l1 as [|a l1 IH]; intros l2 H1 H2 Hp.
  - apply Permutation_nil in Hp. now subst.
  - destruct l2 as [|b l2];
      [apply Permutation_sym, Permutation_nil in Hp; discriminate|].
    apply StronglySorted_inv in H1 as [H1 Ha].
    apply StronglySorted_inv in H2 as [H2 Hb].
    rewrite Forall_forall in Ha, Hb.
    assert (a = b).
    { assert (Hab : In b (a :: l1))
        by (apply (Permutation_in _ (Permutation_sym Hp)); now left).
      assert (Hba : In a (b :: l2))
        by (apply (Permutation_in _ Hp); now left).
      destruct Hab as [->|Hab]; [reflexivity|].
      destruct Hba as [->|Hba]; [reflexivity|].
      specialize (Ha _ Hab). specialize (Hb _ Hba). lia. }
    subst b. f_equal. apply IH; auto.
    now apply Permutation_cons_inv in Hp.
Qed.

Lemma seq_sorted n : forall s, StronglySorted le (seq s n).
Proof.
  induction n as [|n IH]; intros s; cbn; constructor; [apply IH|].
  apply Forall_forall. intros x Hx. apply in_seq in Hx. lia.
Qed.

Lemma sort_shuffled_range shuffled n :
  Permutation shuffled (seq 0 n) -> NatSort.sort shuffled = seq 0 n.
Proof.
  intros Hp. apply sorted_permutation_unique.
  - apply Sorted_StronglySorted; [intros x y z; apply Nat.le_trans|].
    apply Sorted_leb_le, NatSort.Sorted_sort.
  - apply seq_sorted.
  - eapply Permutation_trans; [|exact Hp].
    apply Permutation_sym, NatSort.Permuted_sort.
Qed.

Lemma floor_zero_rate (n : Z) : Qfloor (inject_Z n * (1 - 0)) = n.
Proof. rewrite <- (Qfloor_Z n) at 2. apply Qfloor_comp. ring. Qed.

(** The evaluator's call: a length given as a natural number. *)
Lemma zero_rate_keeps_range shuffled (n : nat) :
  Permutation shuffled (seq 0 n) ->
  get_indexes_to_keep shuffled (Z.of_nat n) 0 = Some (seq 0 n).
Proof.
  intros Hp. unfold get_indexes_to_keep, np_random_choice. cbv zeta.
  rewrite floor_zero_rate, Z.ltb_irrefl, Nat2Z.id.
  destruct (Z.ltb_spec (Z.of_nat n) 0); [lia|].
  rewrite firstn_all2
    by (rewrite (Permutation_length Hp), length_seq; lia).
  now rewrite (@sort_shuffled_range _ _ Hp).
Qed.

(** X12. With a drop rate of zero every index is kept, in order, whatever
    permutation the generator draws: the result is [0, 1, ..., n - 1]. *)
Theorem get_indexes_to_keep_drop_nothing shuffled (original_length : Z) :
  (0 <= original_length)%Z ->
  Permutation shuffled (seq 0 (Z.to_nat original_length)) ->
  get_indexes_to_keep shuffled original_length 0
  = Some (seq 0 (Z.to_nat original_length)).
Proof.
  intros Hn Hp. unfold get_indexes_to_keep, np_random_choice. cbv zeta.
  rewrite floor_zero_rate.
  destruct (Z.ltb_spec original_length 0); [lia|].
  rewrite Z.ltb_irrefl.
  rewrite firstn_all2
    by (rewrite (Permutation_length Hp), length_seq; lia).
  now rewrite (@sort_shuffled_range _ _ Hp).
Qed.

(** X13. With a drop rate of one nothing is kept: the result is the empty
    list, whatever the generator draws. *)
Theorem get_indexes_to_keep_drop_all shuffled (original_length : Z) :
  (0 <= original_length)%Z ->
  get_indexes_to_keep shuffled original_length 1 = Some [].
Proof.
  intros Hn. unfold get_indexes_to_keep, np_random_choice. cbv zeta.
  assert (E : Qfloor (inject_Z original_length * (1 - 1)) = 0%Z).
  { rewrite <- (Qfloor_Z 0). apply Qfloor_comp. ring. }
  rewrite E. cbn [Z.ltb Z.compare].
  destruct (Z.ltb_spec original_length 0); [lia|]. reflexivity.
Qed.


Lemma get_indexes_to_keep_drop_nothing_witness :
  get_indexes_to_keep (rev (seq 0 5)) 5 0 = Some [0; 1; 2; 3; 4]%nat.
Proof.
  apply (@get_indexes_to_keep_drop_nothing (rev (seq 0 5)) 5).
  - lia.
  - apply Permutation_sym, Permutation_rev.
Defined.

Lemma get_indexes_to_keep_drop_all_witness :
  get_indexes_to_keep [3; 1; 2; 0]%nat 4 1 = Some [].
Proof. apply (@get_indexes_to_keep_drop_all [3; 1; 2; 0]%nat 4). lia. Defined.


(** ** The evaluator's loop *)

Lemma skipn_nth_error {A} (m : list A) : forall s x,
  nth_error m s = Some x -> skipn s m = x :: skipn (S s) m.
Proof.
  induction m as [|a m IH]; intros [|s] x H; cbn in H; try discriminate.
  - now injection H as ->.
  - cbn [skipn]. rewrite (IH s x H). reflexivity.
Qed.

(** Selecting the rows [s, s+1, ..., s+k-1] takes [k] rows from row [s] on. *)
Lemma index_rows_range (m : mat) k : forall s,
  (s + k <= length m)%nat ->
  index_rows m (seq s k) = Some (firstn k (skipn s m)).
Proof.
  induction k as [|k IH]; intros s H; [reflexivity|].
  cbn [seq index_rows].
  destruct (nth_error m s) as [x|] eqn:E.
  2:{ apply nth_error_None in E. lia. }
  rewrite IH by lia. rewrite (skipn_nth_error _ _ E). reflexivity.
Qed.

Lemma index_rows_out_of_range (m : mat) idx i :
  In i idx -> (length m <= i)%nat -> index_rows m idx = None.
Proof.
  induction idx as [|j idx IH]; intros Hin Hi; [contradiction|].
  cbn [index_rows]. destruct Hin as [->|Hin].
  - apply nth_error_None in Hi. now rewrite Hi.
  - rewrite (IH Hin Hi). now destruct (nth_error m j).
Qed.

Section EvaluatorExtras.

Variable T : Torch.
Variable datasets : split -> Data.
Variable hyperparams : Hyperparameters.

Local Open Scope py_scope.

(** X15. With the default drop rate of zero, an evaluation window of at
    least 100 covariate and target rows is passed to the model as its first
    100 rows in their original order, whatever permutation the generator
    draws. *)
Theorem test_window_drop_nothing i win totals (w : World T) :
  Permutation (np_permutation T i GT_STEPS_FOR_EXTRAPOLATION)
              (seq 0 GT_STEPS_FOR_EXTRAPOLATION) ->
  (GT_STEPS_FOR_EXTRAPOLATION <= length (weather_window win))%nat ->
  (GT_STEPS_FOR_EXTRAPOLATION <= length (infect_window win))%nat ->
  test_window datasets hyperparams 0 i win totals w =
  (infect_hat <-
     forward datasets hyperparams (TestCall i)
       (firstn GT_STEPS_FOR_EXTRAPOLATION (weather_window win))
       (firstn GT_STEPS_FOR_EXTRAPOLATION (infect_window win))
       (time_window win) ;;
   losses <- lift (window_losses T datasets infect_hat (infect_window win)) ;;
   emit (Loss (TestCall i) (snd losses)) ;;
   ret (fl_add (fst totals) (fst losses), fl_add (snd totals) (snd losses)))
    w.
Proof.
  intros Hp Hw Hi. unfold test_window.
  rewrite (@zero_rate_keeps_range
             (np_permutation T i GT_STEPS_FOR_EXTRAPOLATION)
             GT_STEPS_FOR_EXTRAPOLATION Hp).
  rewrite bind_lift.
  rewrite (index_rows_range (weather_window win)
             GT_STEPS_FOR_EXTRAPOLATION 0) by exact Hw.
  rewrite bind_lift.
  rewrite (index_rows_range (infect_window win)
             GT_STEPS_FOR_EXTRAPOLATION 0) by exact Hi.
  rewrite bind_lift. reflexivity.
Qed.

(** X16. With the default drop rate of zero, an evaluation window with fewer
    than 100 covariate rows makes the evaluator raise (index out of range)
    before the model is called. *)
Theorem test_window_short_window_raises i win totals (w : World T) :
  Permutation (np_permutation T i GT_STEPS_FOR_EXTRAPOLATION)
              (seq 0 GT_STEPS_FOR_EXTRAPOLATION) ->
  (length (weather_window win) < GT_STEPS_FOR_EXTRAPOLATION)%nat ->
  test_window datasets hyperparams 0 i win totals w
  = {| res := None; st := w; log := [] |}.
Proof.
  intros Hp Hw. unfold test_window.
  rewrite (@zero_rate_keeps_range
             (np_permutation T i GT_STEPS_FOR_EXTRAPOLATION)
             GT_STEPS_FOR_EXTRAPOLATION Hp).
  rewrite bind_lift.
  rewrite (@index_rows_out_of_range (weather_window win)
             (seq 0 GT_STEPS_FOR_EXTRAPOLATION)
             (length (weather_window win)));
    [| apply in_seq; lia | lia].
  rewrite bind_lift. reflexivity.
Qed.

Lemma test_window_live drop_rate i win totals :
  moves T TestSet TestSet (fun e => live e = TestSet)
        (test_window datasets hyperparams drop_rate i win totals).
Proof.
  unfold test_window.
  apply moves_bind with (d1 := TestSet); [apply moves_lift | intros idx].
  apply moves_bind with (d1 := TestSet); [apply moves_lift | intros we].
  apply moves_bind with (d1 := TestSet); [apply moves_lift | intros inf].
  apply moves_bind with (d1 := TestSet);
    [apply moves_forward; auto | intros mu].
  apply moves_bind with (d1 := TestSet); [apply moves_lift | intros losses].
  apply moves_bind with (d1 := TestSet);
    [apply moves_emit; reflexivity | intros _].
  apply moves_ret.
Qed.

Lemma test_windows_live drop_rate ws : forall i totals,
  moves T TestSet TestSet (fun e => live e = TestSet)
        (test_windows datasets hyperparams drop_rate i ws totals).
Proof.
  induction ws as [|win ws IH]; intros i totals; cbn.
  - apply moves_ret.
  - apply moves_bind with (d1 := TestSet);
      [apply test_window_live | intros ?; apply IH].
Qed.

Lemma test_window_stable drop_rate i win totals :
  stable T (@same_weights T)
         (test_window datasets hyperparams drop_rate i win totals).
Proof.
  unfold test_window.
  apply stable_bind; [apply stable_lift | intros idx].
  apply stable_bind; [apply stable_lift | intros we].
  apply stable_bind; [apply stable_lift | intros inf].
  apply stable_bind; [apply stable_forward | intros mu].
  apply stable_bind; [apply stable_lift | intros losses].
  apply stable_bind; [now apply stable_still | intros _].
  now apply stable_still.
Qed.

Lemma test_windows_stable drop_rate ws : forall i totals,
  stable T (@same_weights T)
         (test_windows datasets hyperparams drop_rate i ws totals).
Proof.
  induction ws as [|win ws IH]; intros i totals; cbn.
  - now apply stable_still.
  - apply stable_bind; [apply test_window_stable | intros ?; apply IH].
Qed.

(** X17. From whatever state the loaded model is in, the evaluator runs
    every forward call with the vector field referring to the test dataset,
    leaves it there, and never changes the parameters or the gradients. *)
Theorem test_runs_on_test_set drop_rate (w : World T) :
  Forall (fun e => live e = TestSet)
         (log (test datasets hyperparams drop_rate w)) /\
  params (st (test datasets hyperparams drop_rate w)) = params w /\
  grads (st (test datasets hyperparams drop_rate w)) = grads w /\
  forall r, res (test datasets hyperparams drop_rate w) = Some r ->
            odefunc_data (st (test datasets hyperparams drop_rate w))
            = TestSet.
Proof.
  assert (Hm : moves T (odefunc_data w) TestSet (fun e => live e = TestSet)
                     (test datasets hyperparams drop_rate)).
  { unfold test.
    apply moves_bind with (d1 := TestSet); [apply moves_set_data | intros _].
    apply moves_bind with (d1 := TestSet);
      [apply test_windows_live | intros totals].
    apply moves_bind with (d1 := TestSet); [apply moves_lift | intros a].
    apply moves_bind with (d1 := TestSet); [apply moves_lift | intros b].
    apply moves_ret. }
  assert (Hs : stable T (@same_weights T)
                      (test datasets hyperparams drop_rate)).
  { unfold test.
    apply stable_bind; [apply stable_set_data | intros _].
    apply stable_bind; [apply test_windows_stable | intros totals].
    apply stable_bind; [apply stable_lift | intros a].
    apply stable_bind; [apply stable_lift | intros b].
    now apply stable_still. }
  destruct (Hm w eq_refl) as [Hl Hr]. destruct (Hs w) as [Hp Hg].
  repeat split; auto.
Qed.

(** X18. With a test dataset of zero windows the evaluator raises before
    the loss file is written: the averages divide by the number of
    windows. *)
Theorem test_without_windows drop_rate (w : World T) :
  num_windows (test_data datasets) = 0%nat ->
  res (test datasets hyperparams drop_rate w) = None.
Proof.
  intros Hz. unfold test. rewrite bind_set_data.
  destruct (res (test_windows datasets hyperparams drop_rate 0
                   (windows (test_data datasets)) (Fin 0, Fin 0)
                   (with_data w TestSet))) as [totals|] eqn:E.
  - rewrite (bind_run _ _ _ E), bind_lift, Hz. reflexivity.
  - rewrite (bind_fail _ _ _ E). reflexivity.
Qed.

End EvaluatorExtras.

(** ** Concrete runs on the table-driven model *)


Lemma validation_failure_keeps_valid_set_witness :
  odefunc_data
    (st (valid_window (toy_datasets 1) (toy_hp 1) 0 0 single_time_window
           (Fin 0) (toy_world (table_of [Fin 1])))) = ValidSet.
Proof.
  destruct (@validation_failure_keeps_valid_set (toy (table_of [Fin 1]))
              (toy_datasets 1) (toy_hp 1) 0 0 single_time_window (Fin 0)
              (toy_world (table_of [Fin 1]))) as [_ H].
  - vm_compute. reflexivity.
  - exact H.
Defined.

Lemma train_curve_lengths_witness :
  length [Fin (3 # 4); Fin (1 # 2)] = 2%nat /\
  length [Fin (3 # 5); Fin (2 # 5)] = 2%nat.
Proof.
  apply (@train_curve_lengths (toy (table_of table_c3)) (toy_datasets 2)
           (toy_hp 2) (toy_world (table_of table_c3))
           {| all_train_avg_loss := [Fin (3 # 4); Fin (1 # 2)];
              all_valid_avg_loss := [Fin (3 # 5); Fin (2 # 5)];
              lowest_valid_avg_loss := Some (Fin (2 # 5)) |}).
  vm_compute. reflexivity.
Defined.

Lemma last_checkpoint_is_best_witness :
  exists m e,
    Some (Fin (3 # 10)) = Some m /\
    In e (saved_epochs (log (toy_train 1 table_c3 5))) /\
    (forall e', In e' (saved_epochs (log (toy_train 1 table_c3 5))) ->
       (e' <= e)%nat) /\
    nth e [Fin (1 # 2); Fin (3 # 5); Fin (2 # 5); Fin (2 # 5); Fin (3 # 10)]
        NaN = m /\
    forall x,
      In x [Fin (1 # 2); Fin (3 # 5); Fin (2 # 5); Fin (2 # 5); Fin (3 # 10)] ->
      fl_ltb x m = false.
Proof.
  apply (@last_checkpoint_is_best (toy (table_of table_c3)) (toy_datasets 1)
           (toy_hp 5) (toy_world (table_of table_c3))
           {| all_train_avg_loss :=
                [Fin 1; Fin (1 # 2); Fin (3 # 5); Fin (2 # 5); Fin (2 # 5)];
              all_valid_avg_loss :=
                [Fin (1 # 2); Fin (3 # 5); Fin (2 # 5); Fin (2 # 5);
                 Fin (3 # 10)];
              lowest_valid_avg_loss := Some (Fin (3 # 10)) |}).
  - vm_compute. reflexivity.
  - reflexivity.
Defined.

Lemma checkpoints_strictly_improve_witness :
  fl_ltb (Fin (2 # 5)) (Fin (1 # 2)) = true.
Proof.
  apply (@checkpoints_strictly_improve (toy (table_of table_c3))
           (toy_datasets 1) (toy_hp 5) (toy_world (table_of table_c3))
           {| all_train_avg_loss :=
                [Fin 1; Fin (1 # 2); Fin (3 # 5); Fin (2 # 5); Fin (2 # 5)];
              all_valid_avg_loss :=
                [Fin (1 # 2); Fin (3 # 5); Fin (2 # 5); Fin (2 # 5);
                 Fin (3 # 10)];
              lowest_valid_avg_loss := Some (Fin (3 # 10)) |} 0%nat 2%nat).
  - vm_compute. reflexivity.
  - vm_compute. left. reflexivity.
  - vm_compute. right. left. reflexivity.
  - lia.
Defined.

Lemma train_without_training_windows_witness :
  res (toy_train 0 [] 1) = None.
Proof.
  apply (@train_without_training_windows (toy (table_of [])) (toy_datasets 0)
           (toy_hp 1) (toy_world (table_of []))).
  - reflexivity.
  - reflexivity.
Defined.

Lemma train_without_validation_windows_witness :
  saved_epochs
    (log (train (toy_datasets_of [toy_window] [] [toy_window]) (toy_hp 1)
            (toy_world (table_of [Fin 1])))) = [].
Proof.
  apply (@train_without_validation_windows (toy (table_of [Fin 1]))
           (toy_datasets_of [toy_window] [] [toy_window]) (toy_hp 1)
           (toy_world (table_of [Fin 1]))).
  - reflexivity.
  - reflexivity.
Defined.

Lemma test_window_drop_nothing_witness :
  res (test_window (toy_datasets_of [] [] [long_window]) (toy_hp 1) 0 0
         long_window (Fin 0, Fin 0) (toy_world (table_of [Fin 1])))
  = Some (Fin 16, Fin 1).
Proof.
  rewrite (@test_window_drop_nothing (toy (table_of [Fin 1]))
             (toy_datasets_of [] [] [long_window]) (toy_hp 1) 0 long_window
             (Fin 0, Fin 0) (toy_world (table_of [Fin 1]))).
  - vm_compute. reflexivity.
  - apply Permutation_sym, Permutation_rev.
  - cbn [long_window weather_window]. rewrite repeat_length. apply le_n.
  - cbn [long_window infect_window]. rewrite repeat_length. apply le_n.
Defined.

Lemma test_window_short_window_raises_witness :
  res (test_window (toy_datasets 1) (toy_hp 1) 0 0 toy_window (Fin 0, Fin 0)
         (toy_world (table_of [Fin 1]))) = None.
Proof.
  rewrite (@test_window_short_window_raises (toy (table_of [Fin 1]))
             (toy_datasets 1) (toy_hp 1) 0 toy_window (Fin 0, Fin 0)
             (toy_world (table_of [Fin 1]))).
  - reflexivity.
  - apply Permutation_sym, Permutation_rev.
  - vm_compute. lia.
Defined.

Lemma test_without_windows_witness :
  res (test (toy_datasets_of [toy_window] [toy_window] []) (toy_hp 1) 0
         (toy_world (table_of [Fin 1]))) = None.
Proof.
  apply (@test_without_windows (toy (table_of [Fin 1]))
           (toy_datasets_of [toy_window] [toy_window] []) (toy_hp 1) 0
           (toy_world (table_of [Fin 1]))).
  reflexivity.
Defined.

(** ** Job names: the trainer, the evaluator's default and the job grid *)

Section JobNames.

Local Open Scope string_scope.

Variable float_repr : pyfloat -> string.

Lemma count_char_append c a b :
  count_char c (a ++ b) = (count_char c a + count_char c b)%nat.
Proof.
  induction a as [|x a IH]; cbn [append count_char]; [reflexivity|].
  rewrite IH. apply Nat.add_assoc.
Qed.

Lemma count_char_plain c s : occurs c s = false -> count_char c s = 0%nat.
Proof.
  induction s as [|x s IH]; cbn [occurs count_char]; [reflexivity|].
  intros H. apply orb_false_elim in H as [Hx Hs].
  rewrite Hx, (IH Hs). reflexivity.
Qed.

(** Every job identifier holds at least the ten underscores of its
    separators. *)
Lemma job_id_underscores hp :
  (10 <= count_char "_" (get_job_id float_repr hp))%nat.
Proof.
  unfold get_job_id. rewrite !count_char_append.
  change (count_char "_" "_") with 1%nat.
  change (count_char "_" "_lr") with 1%nat.
  change (count_char "_" "_enc") with 1%nat.
  change (count_char "_" "_hidden") with 1%nat.
  change (count_char "_" "_ode") with 1%nat.
  change (count_char "_" "_dec") with 1%nat.
  change (count_char "_" "_window") with 1%nat.
  change (count_char "_" "_epochs") with 1%nat.
  change (count_char "_" "_rtol") with 1%nat.
  change (count_char "_" "_atol") with 1%nat.
  lia.
Qed.

(** X19. The evaluator's default [--job_id] is not the identifier of any
    training run: whatever the hyperparameters and however floats print,
    [get_job_id] never returns it (it has eight underscores, an identifier
    at least ten), so the default names a model file the trainer never
    writes. *)
Theorem default_job_id_is_no_job_id hp :
  get_job_id float_repr hp <> default_job_id.
Proof.
  intros E. pose proof (job_id_underscores hp) as H. rewrite E in H.
  change (count_char "_" default_job_id) with 8%nat in H. lia.
Qed.

Hypothesis float_repr_plain : forall x, occurs "_" (float_repr x) = false.

Lemma sbatch_job_underscores p :
  count_char "_" (sbatch_job float_repr p) = 9%nat.
Proof.
  destruct p as (lr0 & enc & hid & ode & dec & win & ep & rt & at0).
  unfold sbatch_job. rewrite !count_char_append.
  rewrite !(count_char_plain _ _ (str_list_plain _)).
  rewrite !(count_char_plain _ _ (@str_int_plain "_" _ eq_refl)).
  rewrite (count_char_plain _ _ (format_1e_plain _)).
  rewrite !(count_char_plain _ _ (float_repr_plain _)).
  reflexivity.
Qed.

(** X20. The job name the grid script gives a run is never the job
    identifier the launched trainer computes, for no hyperparameters at all:
    the name has no solver segment, hence nine underscores where an
    identifier has at least ten. *)
Theorem sbatch_job_is_no_job_id p hp :
  sbatch_job float_repr p <> get_job_id float_repr hp.
Proof.
  intros E. pose proof (job_id_underscores hp) as H. rewrite <- E in H.
  rewrite sbatch_job_underscores in H. lia.
Qed.

Lemma NoDup_map_in_inj {A B} (f : A -> B) l :
  NoDup (map f l) ->
  forall x y, In x l -> In y l -> f x = f y -> x = y.
Proof.
  induction l as [|a l IH]; intros Hn x y Hx Hy E; [contradiction|].
  cbn [map] in Hn. apply NoDup_cons_iff in Hn as [Ha Hn].
  destruct Hx as [<-|Hx], Hy as [<-|Hy].
  - reflexivity.
  - exfalso. apply Ha. rewrite E. now apply in_map.
  - exfalso. apply Ha. rewrite <- E. now apply in_map.
  - now apply IH.
Qed.

Lemma NoDup_list_prod {A B} (l1 : list A) (l2 : list B) :
  NoDup l1 -> NoDup l2 -> NoDup (list_prod l1 l2).
Proof.
  intros H1 H2. induction l1 as [|a l1 IH]; cbn [list_prod]; [constructor|].
  apply NoDup_cons_iff in H1 as [Ha H1].
  apply NoDup_app.
  - apply NoDup_map_NoDup_ForallPairs; [|exact H2].
    intros x y _ _ E. now injection E.
  - now apply IH.
  - intros [x y] Hin Hin'. apply in_map_iff in Hin as (z & E & _).
    injection E as <- _. apply in_prod_iff in Hin' as [Hin' _].
    now apply Ha.
Qed.

(** Equal job names have equal printed parts. *)
Lemma sbatch_job_parts p q :
  sbatch_job float_repr p = sbatch_job float_repr q ->
  let '(lr1, (enc1, (hid1, (ode1, (dec1, (win1, (ep1, (rt1, at1)))))))) :=
    p in
  let '(lr2, (enc2, (hid2, (ode2, (dec2, (win2, (ep2, (rt2, at2)))))))) :=
    q in
  format_1e lr1 = format_1e lr2 /\ enc1 = enc2 /\ hid1 = hid2 /\
  ode1 = ode2 /\ dec1 = dec2 /\ win1 = win2 /\ ep1 = ep2 /\
  float_repr rt1 = float_repr rt2 /\ float_repr at1 = float_repr at2.
Proof.
  destruct p as (lr1 & enc1 & hid1 & ode1 & dec1 & win1 & ep1 & rt1 & at1).
  destruct q as (lr2 & enc2 & hid2 & ode2 & dec2 & win2 & ep2 & rt2 & at2).
  unfold sbatch_job.
  generalize (@str_list_inj enc1 enc2) (@str_list_inj ode1 ode2)
             (@str_list_inj dec1 dec2)
             (str_list_plain enc1) (str_list_plain enc2)
             (str_list_plain ode1) (str_list_plain ode2)
             (str_list_plain dec1) (str_list_plain dec2).
  generalize (str_list enc1) (str_list enc2) (str_list ode1) (str_list ode2)
             (str_list dec1) (str_list dec2).
  intros e1 e2 o1 o2 d1 d2 Ie Io Id Pe1 Pe2 Po1 Po2 Pd1 Pd2.
  cbn [append]. intros E. injection E as E.
  apply append_split in E as [Elr E]; auto using format_1e_plain.
  injection E as E.
  apply append_split in E as [Eenc E]; auto.
  injection E as E.
  apply append_split in E as [Ehid E]; try (now apply str_int_plain).
  injection E as E.
  apply append_split in E as [Eode E]; auto.
  injection E as E.
  apply append_split in E as [Edec E]; auto.
  injection E as E.
  apply append_split in E as [Ewin E]; try (now apply str_int_plain).
  injection E as E.
  apply append_split in E as [Eep E]; try (now apply str_int_plain).
  injection E as E.
  apply append_split in E as [Ertol E]; auto.
  injection E as E.
  apply str_int_inj in Ehid, Ewin, Eep.
  repeat split; auto.
Qed.

(** X21. The grid script writes one job file per combination, and no job
    file overwrites another, provided no list of the grid repeats a value,
    the learning rates stay distinct once rendered with two significant
    digits, and the tolerances print differently. *)
Theorem sbatch_jobs_distinct g :
  NoDup (map format_1e (lr_list g)) ->
  NoDup (encoder_fc_dims_list g) ->
  NoDup (hidden_dims_list g) ->
  NoDup (odefunc_fc_dims_list g) ->
  NoDup (decoder_fc_dims_list g) ->
  NoDup (window_length_list g) ->
  NoDup (num_epochs_list g) ->
  NoDup (map float_repr (rtol_list g)) ->
  NoDup (map float_repr (atol_list g)) ->
  NoDup (sbatch_jobs float_repr g) /\
  length (sbatch_jobs float_repr g)
  = (length (lr_list g) * (length (encoder_fc_dims_list g) *
      (length (hidden_dims_list g) * (length (odefunc_fc_dims_list g) *
        (length (decoder_fc_dims_list g) * (length (window_length_list g) *
          (length (num_epochs_list g) *
            (length (rtol_list g) * length (atol_list g)))))))))%nat.
Proof.
  intros Hlr Henc Hhid Hode Hdec Hwin Hep Hrt Hat.
  unfold sbatch_jobs, grid_points. split.
  - apply NoDup_map_NoDup_ForallPairs.
    + intros p q Hp Hq E. apply sbatch_job_parts in E.
      destruct p as (lr1 & enc1 & hid1 & ode1 & dec1 & win1 & ep1 & rt1 & at1).
      destruct q as (lr2 & enc2 & hid2 & ode2 & dec2 & win2 & ep2 & rt2 & at2).
      destruct E as (Elr & -> & -> & -> & -> & -> & -> & Ert & Eat).
      repeat match goal with
             | H : In (_, _) (list_prod _ _) |- _ =>
                 apply in_prod_iff in H as [? H]
             end.
      rewrite (NoDup_map_in_inj _ _ Hlr lr1 lr2) by assumption.
      rewrite (NoDup_map_in_inj _ _ Hrt rt1 rt2) by assumption.
      rewrite (NoDup_map_in_inj _ _ Hat at1 at2) by assumption.
      reflexivity.
    + apply NoDup_map_inv in Hlr, Hrt, Hat.
      repeat apply NoDup_list_prod; assumption.
  - rewrite length_map. unfold grid_point. rewrite !length_prod.
    reflexivity.
Qed.

End JobNames.

Lemma sbatch_job_is_no_job_id_witness :
  sbatch_job format_1e
    (Fin (2 # 10000),
     ([4; 4]%Z, (3%Z, ([4; 8; 4]%Z, ([8; 16; 8]%Z,
       (128%Z, (400%Z, (Fin (1 # 10000), Fin (1 # 1000000)))))))))
  <> get_job_id format_1e (hp_lr (Fin (2 # 10000))).
Proof. apply (@sbatch_job_is_no_job_id format_1e format_1e_plain). Defined.

Lemma sbatch_jobs_distinct_witness :
  NoDup (sbatch_jobs format_1e sbatch_grid) /\
  length (sbatch_jobs format_1e sbatch_grid) = 12%nat.
Proof.
  apply (@sbatch_jobs_distinct format_1e format_1e_plain sbatch_grid);
    cbn [sbatch_grid lr_list encoder_fc_dims_list hidden_dims_list
         odefunc_fc_dims_list decoder_fc_dims_list window_length_list
         num_epochs_list rtol_list atol_list map];
    repeat first
      [ apply NoDup_nil
      | apply NoDup_cons; [cbn [In]; intuition discriminate|] ].
Defined.

(** ** The evaluator's reported average *)

Section EvaluatorAverages.

Variable T : Torch.
Variable datasets : split -> Data.
Variable hyperparams : Hyperparameters.

Local Open Scope py_scope.

Lemma test_losses_app l1 l2 :
  test_losses (l1 ++ l2) = test_losses l1 ++ test_losses l2.
Proof. apply flat_map_app. Qed.

Lemma forward_logs_no_test_loss c weather infect time (w : World T) :
  test_losses (log (forward datasets hyperparams c weather infect time w))
  = [].
Proof.
  destruct (forward_frame datasets hyperparams c weather infect time w)
    as (_ & _ & _ & Hl).
  induction Hl as [|e l [_ He] _ IH]; [reflexivity|].
  unfold test_losses in *. cbn [flat_map]. rewrite IH.
  destruct (what e); cbn in He; try discriminate; reflexivity.
Qed.

Lemma test_window_summary drop_rate i win totals (w : World T) totals' :
  res (test_window datasets hyperparams drop_rate i win totals w)
  = Some totals' ->
  exists mle,
    test_losses
      (log (test_window datasets hyperparams drop_rate i win totals w))
    = [mle] /\
    snd totals' = fl_add (snd totals) mle.
Proof.
  unfold test_window. rewrite bind_lift.
  destruct (get_indexes_to_keep _ _ _) as [idx|]; [|discriminate].
  rewrite bind_lift.
  destruct (index_rows (weather_window win) idx) as [we|]; [|discriminate].
  rewrite bind_lift.
  destruct (index_rows (infect_window win) idx) as [inf|]; [|discriminate].
  destruct (res (forward datasets hyperparams (TestCall i) we inf
                   (time_window win) w)) as [mu|] eqn:Eo.
  2:{ rewrite (bind_fail _ _ _ Eo). discriminate. }
  rewrite (bind_run _ _ _ Eo). cbn [res log]. rewrite bind_lift.
  destruct (window_losses T datasets mu (infect_window win)) as [losses|];
    [|discriminate].
  rewrite bind_emit. cbn [res log ret]. intros [= <-].
  exists (snd losses).
  rewrite test_losses_app, forward_logs_no_test_loss. split; reflexivity.
Qed.

Lemma test_windows_summary drop_rate ws : forall i totals (w : World T) totals',
  res (test_windows datasets hyperparams drop_rate i ws totals w)
  = Some totals' ->
  length (test_losses
            (log (test_windows datasets hyperparams drop_rate i ws totals w)))
  = length ws /\
  snd totals'
  = fold_left fl_add
      (test_losses
         (log (test_windows datasets hyperparams drop_rate i ws totals w)))
      (snd totals).
Proof.
  induction ws as [|win ws IH]; intros i totals w totals' H.
  - cbn in H |- *. injection H as <-. split; reflexivity.
  - cbn [test_windows] in H |- *.
    apply bind_some in H as (t1 & E1 & E2 & _ & Hlog). rewrite Hlog.
    destruct (test_window_summary _ _ _ _ _ E1) as (mle & Hl & Ht).
    destruct (IH _ _ _ _ E2) as (Hn & Hs).
    rewrite test_losses_app, Hl. cbn [app length fold_left].
    rewrite Hn, Hs, Ht. split; reflexivity.
Qed.

(** X22. The MLE average the evaluator writes to the loss file is the sum of
    the per-window losses, every window counted once and in order, divided by
    the dataset's [num_windows]. *)
Theorem test_reports_logged_average drop_rate (w : World T) avg_mle avg_mse :
  res (test datasets hyperparams drop_rate w) = Some (avg_mle, avg_mse) ->
  length (test_losses (log (test datasets hyperparams drop_rate w)))
  = length (windows (test_data datasets)) /\
  py_div (fl_sum (test_losses (log (test datasets hyperparams drop_rate w))))
         (num_windows (test_data datasets))
  = Some avg_mle.
Proof.
  unfold test. rewrite bind_set_data.
  destruct (res (test_windows datasets hyperparams drop_rate 0
                   (windows (test_data datasets)) (Fin 0, Fin 0)
                   (with_data w TestSet))) as [totals|] eqn:E.
  2:{ rewrite (bind_fail _ _ _ E). discriminate. }
  destruct (test_windows_summary _ _ _ _ _ E) as (Hn & Hs).
  rewrite (bind_run _ _ _ E). cbn [res log]. rewrite bind_lift.
  destruct (py_div (snd totals) (num_windows (test_data datasets)))
    as [a|] eqn:Ea; [|discriminate].
  rewrite bind_lift.
  destruct (py_div (fst totals) (num_windows (test_data datasets)))
    as [b|] eqn:Eb; [|discriminate].
  cbn [res log ret]. intros [= <- <-]. rewrite app_nil_r.
  split; [exact Hn|]. unfold fl_sum. cbn [snd] in Hs. rewrite <- Hs.
  exact Ea.
Qed.

End EvaluatorAverages.

Lemma test_reports_logged_average_witness :
  py_div
    (fl_sum
       (test_losses
          (log (test (toy_datasets_of [] [] [long_window]) (toy_hp 1) 0
                  (toy_world (table_of [Fin 1]))))))
    1
  = Some (Fin 1).
Proof.
  apply (@test_reports_logged_average (toy (table_of [Fin 1]))
           (toy_datasets_of [] [] [long_window]) (toy_hp 1) 0
           (toy_world (table_of [Fin 1])) (Fin 1) (Fin 16)).
  vm_compute. reflexivity.
Defined.
